(** * API Simplicity Wizard: the request dispatcher and the error view

  A shallow embedding of [sendRequest] and [formatErrorDetails]
  (src/components/ApiClient.tsx) and of [getNetworkErrorHelp] and the error
  tab of the response viewer (src/components/ResponseViewer.tsx, the
  revision that has the network help), with the properties the
  specification states about them.

  Conventions of the embedding.
  - A JavaScript string is a [string]: a sequence of code units, here the
    8-bit ones.  Template literals are spelled out with [+:+].
  - The browser is a record [Host]: [new URL], [JSON.parse], [fetch],
    [Date.now] and the stack text an engine attaches to [new Error] are its
    fields.  The component never sees more of the browser than that.
  - [sendRequest] is written in a small state-and-exception monad over the
    component's React state, a clock and the log of the network calls.
    [try]/[catch]/[finally] are the combinators [try_catch] and [finally].
  - [console.log] and [console.error] have no effect on the state that the
    properties speak about and are left out; so is the certificate, which
    [sendRequest] only writes to the console. *)

From Stdlib Require Import ZArith Ascii String List Bool Lia.
From stdpp Require Import base strings gmap pretty.
Import ListNotations.

Local Open Scope string_scope.
Local Open Scope list_scope.
Local Open Scope Z_scope.

(** ** JavaScript strings *)

Module Js.

Definition LF : string := String (ascii_of_nat 10) EmptyString.
Definition DQUOTE : string := String (ascii_of_nat 34) EmptyString.

(** [!s]: the empty string is the only falsy string. *)
Definition truthy (s : string) : bool :=
  match s with
  | EmptyString => false
  | String _ _ => true
  end.

(** [a || b] on strings. *)
Definition or_else (a b : string) : string :=
  if truthy a then a else b.

(** [s.startsWith(p)] *)
Fixpoint startsWith (s p : string) : bool :=
  match p with
  | EmptyString => true
  | String c p' =>
      match s with
      | EmptyString => false
      | String d s' => if Ascii.eqb c d then startsWith s' p' else false
      end
  end.

(** [s.includes(sub)] *)
Fixpoint includes (s sub : string) : bool :=
  startsWith s sub ||
  match s with
  | EmptyString => false
  | String _ s' => includes s' sub
  end.

(** White space and line terminators that [trim] removes, among the
    8-bit code units: TAB, LF, VT, FF, CR, SPACE and NBSP. *)
Definition is_white (c : ascii) : bool :=
  let n := nat_of_ascii c in
  (Nat.eqb n 9 || Nat.eqb n 10 || Nat.eqb n 11 || Nat.eqb n 12
   || Nat.eqb n 13 || Nat.eqb n 32 || Nat.eqb n 160)%bool.

Fixpoint trimStart (s : string) : string :=
  match s with
  | EmptyString => EmptyString
  | String c s' => if is_white c then trimStart s' else s
  end.

(** Drops the white tail: a character is kept when it is not white or
    when something is kept after it. *)
Fixpoint trimEnd (s : string) : string :=
  match s with
  | EmptyString => EmptyString
  | String c s' =>
      match trimEnd s' with
      | EmptyString => if is_white c then EmptyString else String c EmptyString
      | rest => String c rest
      end
  end.

Definition trim (s : string) : string := trimEnd (trimStart s).

(** Lines of a template literal, joined by the line feeds between them. *)
Fixpoint join_lines (ls : list string) : string :=
  match ls with
  | [] => ""
  | [l] => l
  | l :: rest => l +:+ LF +:+ join_lines rest
  end.

End Js.

(** ** Data model *)

(** [type HttpMethod] *)
Inductive HttpMethod : Set :=
GET | POST | PUT | DELETE | PATCH | OPTIONS | HEAD.

(** The constructor a thrown value was made with, as far as [instanceof]
  can tell in [formatErrorDetails].  Everything that reaches the handler of
  [sendRequest] is an [Error] instance: its own two [new Error], and the
  rejections of [fetch], which are [TypeError] or [DOMException] objects. *)
Inductive ErrorClass : Set :=
ErrorC | TypeErrorC | SyntaxErrorC | URIErrorC | DOMExceptionC.

Record JsError : Set := mkJsError {
err_class : ErrorClass;
err_name : string;
err_message : string;
err_stack : option string          (* [undefined] when the engine has none *)
}.

(** [RequestInit], the second argument of [fetch]. *)
Record RequestInit : Set := mkRequestInit {
init_method : HttpMethod;
init_headers : list (string * string);
init_body : option string
}.

(** One call of [fetch(url, options)]. *)
Record FetchCall : Set := mkFetchCall {
call_url : string;
call_options : RequestInit
}.

Record Toast : Set := mkToast {
title : string;
description : string;
variant : option string
}.

(** The optional [error] member of [ApiResponse]. *)
Record ApiError : Set := mkApiError {
message : string;
stack : option string;
code : option string;
type : option string;
details : option string
}.

Section Dispatcher.

(** The values [JSON.parse] and [Response.json] produce. *)
Context {J : Type}.

(** [data: any] holds either a string or a decoded JSON value. *)
Inductive Data : Type :=
| DataText (s : string)
| DataJson (j : J).

(** What [fetch] resolves with.  [res_headers] is the sequence
    [Headers.forEach] visits (names already in lower case, one entry per
    name); [res_json] and [res_text] are the outcomes of reading the body
    with [res.json()] and [res.text()]. *)
Record FetchResponse : Type := mkFetchResponse {
  res_status : Z;
  res_statusText : string;
  res_headers : list (string * string);
  res_json : J + JsError;
  res_text : string + JsError
}.

(** [Response.ok]: the status is in the range 200 to 299. *)
Definition res_ok (res : FetchResponse) : bool :=
  (200 <=? res_status res) && (res_status res <=? 299).

(** [res.headers.get(name)] for a lower-case [name]. *)
Fixpoint headers_get (hs : list (string * string)) (name : string)
  : option string :=
  match hs with
  | [] => None
  | (k, v) :: rest => if String.eqb k name then Some v else headers_get rest name
  end.

(** [interface ApiResponse] *)
Record ApiResponse : Type := mkApiResponse {
  status : Z;
  statusText : string;
  headers : gmap string string;
  data : Data;
  time : Z;
  error : option ApiError
}.

(** The browser, as far as the component uses it. *)
Record Host : Type := mkHost {
  (** [new URL(s)]: the object is never read, only a throw matters. *)
  URL_new : string -> unit + JsError;
  (** [JSON.parse(s)] *)
  JSON_parse : string -> J + JsError;
  (** [await fetch(url, options)] *)
  fetch : FetchCall -> FetchResponse + JsError;
  (** [Date.now()] at its n-th call *)
  Date_now : nat -> Z;
  (** the [stack] of a [new Error(msg)] made by the component *)
  Error_stack : string -> option string
}.

(** The React state of [ApiClient] that [sendRequest] writes, with the
    toasts it has shown. *)
Record UiState : Type := mkUiState {
  loading : bool;
  response : option ApiResponse;
  errorDetails : option string;
  toasts : list Toast
}.

(** The state threaded through a run: the component, the number of clock
    readings so far and the network calls made so far (oldest first). *)
Record World : Type := mkWorld {
  ui : UiState;
  clock_reads : nat;
  network : list FetchCall
}.

(** ** The monad of [sendRequest]

    A computation reads and writes the [World] and either returns or throws
    a [JsError]. *)

Definition M (A : Type) : Type := World -> (A + JsError) * World.

Definition ret {A} (a : A) : M A := fun w => (inl a, w).

Definition throw {A} (e : JsError) : M A := fun w => (inr e, w).

Definition bind {A B} (m : M A) (k : A -> M B) : M B :=
  fun w =>
    match m w with
    | (inl a, w') => k a w'
    | (inr e, w') => (inr e, w')
    end.

(** [try { m } catch (e) { h e }] *)
Definition try_catch {A} (m : M A) (h : JsError -> M A) : M A :=
  fun w =>
    match m w with
    | (inl a, w') => (inl a, w')
    | (inr e, w') => h e w'
    end.

(** [try { m } finally { f }] *)
Definition finally {A} (m : M A) (f : M unit) : M A :=
  fun w =>
    let (r, w') := m w in
    match f w' with
    | (inl _, w'') => (r, w'')
    | (inr e, w'') => (inr e, w'')
    end.

(** The outcome of a host operation, returned or thrown. *)
Definition lift {A} (r : A + JsError) : M A :=
  match r with
  | inl a => ret a
  | inr e => throw e
  end.

Definition modify_ui (f : UiState -> UiState) : M unit :=
  fun w => (inl tt, mkWorld (f (ui w)) (clock_reads w) (network w)).

End Dispatcher.

Arguments Data : clear implicits.
Arguments FetchResponse : clear implicits.
Arguments ApiResponse : clear implicits.
Arguments Host : clear implicits.
Arguments UiState : clear implicits.
Arguments World : clear implicits.
Arguments M : clear implicits.

Declare Scope dispatch_scope.
Delimit Scope dispatch_scope with dispatch.
Notation "x <- m ;; k" := (bind m (fun x => k))
  (at level 20, m at level 99, k at level 200, only parsing) : dispatch_scope.
Notation "m ;; k" := (bind m (fun _ => k))
  (at level 100, k at level 200, only parsing, right associativity) : dispatch_scope.

Local Open Scope dispatch_scope.
Import Js.

(** ** [formatErrorDetails] (ApiClient.tsx) *)

Definition instanceof_TypeError (e : JsError) : bool :=
  match err_class e with TypeErrorC => true | _ => false end.

Definition instanceof_SyntaxError (e : JsError) : bool :=
  match err_class e with SyntaxErrorC => true | _ => false end.

Definition instanceof_URIError (e : JsError) : bool :=
  match err_class e with URIErrorC => true | _ => false end.

(** [if (error.stack)]: a stack that is present and not empty. *)
Definition has_stack (e : JsError) : bool :=
  match err_stack e with
  | Some s => truthy s
  | None => false
  end.

(** The branch for [error instanceof Error], the one every thrown value of
    [sendRequest] takes. *)
Definition formatErrorDetails (error : JsError) : string :=
  let details :=
    "Error Type: " +:+ err_name error +:+ LF +:+ "Message: " +:+ err_message error in
  let details :=
    if has_stack error
    then details +:+ LF +:+ LF +:+ "Stack Trace:" +:+ LF +:+ default "" (err_stack error)
    else details in
  if instanceof_TypeError error then
    details
      +:+ LF +:+ LF +:+ "This is a TypeError, which often occurs when:"
      +:+ LF +:+ "- Trying to access properties of undefined or null"
      +:+ LF +:+ "- Calling a non-function value"
      +:+ LF +:+ "- Incompatible value types in an operation"
  else if instanceof_SyntaxError error then
    details
      +:+ LF +:+ LF +:+ "This is a SyntaxError, which typically occurs when:"
      +:+ LF +:+ "- JSON parsing failed due to malformed data"
      +:+ LF +:+ "- Invalid syntax in dynamic code evaluation"
  else if instanceof_URIError error then
    details
      +:+ LF +:+ LF +:+ "This is a URIError, which occurs when:"
      +:+ LF +:+ "- Malformed URI components in encoding/decoding functions"
  else details.

(** ** The status explanation of [sendRequest]

    The template literal handed to [setErrorDetails] when [!res.ok], with its
    ten conditional lines in the order of the source. *)

Definition statusExplanation (status : Z) (statusText : string) : string :=
  "HTTP Error " +:+ pretty status +:+ " (" +:+ statusText
    +:+ "): The server returned an error response. " +:+ LF
    +:+ "        " +:+ LF
    +:+ "Common causes for HTTP " +:+ pretty status +:+ ":" +:+ LF
    +:+ (if (400 <=? status) && (status <? 500)
         then "- Client-side error (invalid request parameters, authentication issues, etc.)"
         else "") +:+ LF
    +:+ (if 500 <=? status
         then "- Server-side error (internal errors, service unavailable, etc.)"
         else "") +:+ LF
    +:+ (if status =? 401 then "- Authentication required or failed" else "") +:+ LF
    +:+ (if status =? 403
         then "- Insufficient permissions to access the resource" else "") +:+ LF
    +:+ (if status =? 404
         then "- Resource not found at the specified endpoint" else "") +:+ LF
    +:+ (if status =? 429 then "- Rate limit exceeded (too many requests)" else "") +:+ LF
    +:+ (if status =? 500
         then "- Internal server error (generic server failure)" else "") +:+ LF
    +:+ (if status =? 502
         then "- Bad gateway (upstream server received an invalid response)"
         else "") +:+ LF
    +:+ (if status =? 503
         then "- Service unavailable (server is overloaded or down for maintenance)"
         else "") +:+ LF
    +:+ (if status =? 504
         then "- Gateway timeout (server didn't receive timely response from upstream server)"
         else "").

(** ** [sendRequest] (ApiClient.tsx) *)

(** The messages of the two errors [sendRequest] throws itself. *)
Definition InvalidUrl_message (url : string) : string :=
  "Invalid URL: " +:+ url
    +:+ ". Make sure to include the protocol (http:// or https://).".

Definition InvalidRequestBody_message (parser_message : string) : string :=
  "Invalid JSON in request body: " +:+ parser_message
    +:+ ". Please check your JSON syntax.".

Section SendRequest.

Context {J : Type}.
Variable host : Host J.

Definition setLoading (b : bool) : M J unit :=
  modify_ui (fun u => mkUiState b (response u) (errorDetails u) (toasts u)).

Definition setResponse (r : option (ApiResponse J)) : M J unit :=
  modify_ui (fun u => mkUiState (loading u) r (errorDetails u) (toasts u)).

Definition setErrorDetails (d : option string) : M J unit :=
  modify_ui (fun u => mkUiState (loading u) (response u) d (toasts u)).

Definition toast (t : Toast) : M J unit :=
  modify_ui (fun u => mkUiState (loading u) (response u) (errorDetails u) (toasts u ++ [t])).

(** [Date.now()] *)
Definition now : M J Z :=
  fun w => (inl (Date_now host (clock_reads w)),
            mkWorld (ui w) (S (clock_reads w)) (network w)).

(** [await fetch(url, options)]: the call goes on the network log, whatever
    its outcome. *)
Definition do_fetch (c : FetchCall) : M J (FetchResponse J) :=
  fun w => (fetch host c, mkWorld (ui w) (clock_reads w) (network w ++ [c])).

(** [new Error(msg)] *)
Definition new_Error (msg : string) : JsError :=
  mkJsError ErrorC "Error" msg (Error_stack host msg).

(** [method !== "GET" && method !== "HEAD"] *)
Definition permits_body (method : HttpMethod) : bool :=
  match method with
  | GET | HEAD => false
  | _ => true
  end.

(** [headers[key] = value] on an object made by [{}].  The value becomes an
    own property under [key], except under the key [__proto__]: there the
    assignment runs the setter inherited from [Object.prototype], which
    ignores a string, and the object gets no property. *)
Definition assign_header (acc : gmap string string) (key value : string)
  : gmap string string :=
  if String.eqb key "__proto__" then acc else <[key := value]> acc.

(** [res.headers.forEach((value, key) => { headers[key] = value; })] *)
Definition collect_headers (hs : list (string * string)) : gmap string string :=
  fold_left (fun acc kv => assign_header acc kv.1 kv.2) hs ∅.

(** [contentType && contentType.includes('application/json')] *)
Definition is_json_content_type (contentType : option string) : bool :=
  match contentType with
  | Some ct => truthy ct && includes ct "application/json"
  | None => false
  end.

(** [data.trim().startsWith('{') || data.trim().startsWith('[')] *)
Definition looks_like_json (text : string) : bool :=
  startsWith (trim text) "{" || startsWith (trim text) "[".

(** The inner [try]/[catch] around the reading of the body. *)
Definition decode_body (res : FetchResponse J) : M J (Data J) :=
  let contentType := headers_get (res_headers res) "content-type" in
  try_catch
    (if is_json_content_type contentType then
       j <- lift (res_json res) ;;
       ret (DataJson j)
     else
       text <- lift (res_text res) ;;
       if looks_like_json text then
         try_catch
           (j <- lift (JSON_parse host text) ;; ret (DataJson j))
           (fun _ => ret (DataText text))
       else ret (DataText text))
    (fun parseError =>
       ret (DataText ("Failed to parse response: " +:+ err_message parseError))).

Definition failure_message (error : JsError) : string :=
  or_else (err_message error) "Unknown error occurred".

(** The record and the error block built in the outer [catch]. *)
Definition failure_response (error : JsError) (elapsed : Z) : ApiResponse J :=
  {| status := 0;
     statusText := "Error";
     headers := ∅;
     data := DataText (failure_message error);
     time := elapsed;
     error := Some {| message := failure_message error;
                      stack := err_stack error;
                      code := None;
                      type := Some (err_name error);
                      details := Some (formatErrorDetails error) |} |}.

Definition sendRequest (url : string) (method : HttpMethod) (body : string)
  : M J unit :=
  if negb (truthy url) then
    toast {| title := "URL is required";
             description := "Please enter a URL to send the request";
             variant := Some "destructive" |}
  else
    setLoading true ;;
    setResponse None ;;
    setErrorDetails None ;;
    startTime <- now ;;
    finally
      (try_catch
         (try_catch (lift (URL_new host url))
            (fun _ => throw (new_Error (InvalidUrl_message url))) ;;
          let options :=
            {| init_method := method;
               init_headers := [("Content-Type", "application/json")];
               init_body := None |} in
          options <-
            (if permits_body method && truthy body then
               try_catch
                 (lift (JSON_parse host body) ;;
                  ret {| init_method := init_method options;
                         init_headers := init_headers options;
                         init_body := Some body |})
                 (fun parseError => throw (new_Error
                    (InvalidRequestBody_message (err_message parseError))))
             else ret options) ;;
          res <- do_fetch (mkFetchCall url options) ;;
          endTime <- now ;;
          let headers := collect_headers (res_headers res) in
          data <- decode_body res ;;
          setResponse (Some {| status := res_status res;
                               statusText := res_statusText res;
                               headers := headers;
                               data := data;
                               time := endTime - startTime;
                               error := None |}) ;;
          if negb (res_ok res) then
            setErrorDetails
              (Some (statusExplanation (res_status res) (res_statusText res)))
          else ret tt)
         (fun error =>
            let detailedError := formatErrorDetails error in
            setErrorDetails (Some detailedError) ;;
            t <- now ;;
            setResponse (Some (failure_response error (t - startTime))) ;;
            toast {| title := "Request failed";
                     description := failure_message error;
                     variant := Some "destructive" |}))
      (setLoading false).

End SendRequest.

(** ** The error tab of [ResponseViewer] (ResponseViewer.tsx) *)

(** The amber box [getNetworkErrorHelp] returns. *)
Record NetworkHelp : Set := mkNetworkHelp {
  help_title : string;
  help_description : string;
  help_causes : list string;
  help_steps : list string
}.

Definition network_help : NetworkHelp :=
  {| help_title := "Network Connection Error";
     help_description :=
       DQUOTE +:+ "Failed to fetch" +:+ DQUOTE
         +:+ " indicates a network-level issue occurred when attempting to connect to the server.";
     help_causes :=
       [ "No internet connection";
         "Server is unreachable or down";
         "CORS (Cross-Origin Resource Sharing) policy restriction";
         "Invalid SSL certificate for HTTPS requests";
         "Firewall or proxy blocking the connection";
         "DNS resolution failure" ];
     help_steps :=
       [ "Check your internet connection";
         "Verify the URL is correct and the server is running";
         "Check if the API requires CORS headers or if you need to use a proxy";
         "Verify SSL certificates if using HTTPS";
         "Try the request in a tool like Postman or cURL to isolate browser issues";
         "Check browser console for additional network error details" ] |}.

Definition getNetworkErrorHelp (errorMessage : string) : option NetworkHelp :=
  if includes errorMessage "Failed to fetch" then Some network_help else None.

(** What the error tab shows: labelled fields, then the help box. *)
Inductive Block : Set :=
| Field (label content : string)
| Help (note : NetworkHelp).

(** [{x && <div>label x</div>}] for an optional string member. *)
Definition optional_field (label : string) (x : option string) : list Block :=
  match x with
  | Some s => if truthy s then [Field label s] else []
  | None => []
  end.

Definition error_tab (e : ApiError) : list Block :=
  [Field "Message:" (message e)]
    ++ optional_field "Type:" (type e)
    ++ optional_field "Code:" (code e)
    ++ optional_field "Stack Trace:" (stack e)
    ++ optional_field "Details:" (details e)
    ++ match getNetworkErrorHelp (message e) with
       | Some note => [Help note]
       | None => []
       end.

(** [{response.error && <TabsContent value="error"> ... }]: the tab exists
    only for a record with an error block. *)
Definition render_error {J} (r : ApiResponse J) : option (list Block) :=
  match error r with
  | Some e => Some (error_tab e)
  | None => None
  end.

(** ** The ways a run can go

    Views of a run that the properties are stated with: the value left in
    [data], the options of the call, and the worlds a run ends in. *)

Section Outcomes.

Context {J : Type}.
Variable host : Host J.

(** The value the inner [try]/[catch] of [sendRequest] leaves in [data]. *)
Definition decoded (res : FetchResponse J) : Data J :=
  if is_json_content_type (headers_get (res_headers res) "content-type") then
    match res_json res with
    | inl j => DataJson j
    | inr e => DataText ("Failed to parse response: " +:+ err_message e)
    end
  else
    match res_text res with
    | inl text =>
        if looks_like_json text then
          match JSON_parse host text with
          | inl j => DataJson j
          | inr _ => DataText text
          end
        else DataText text
    | inr e => DataText ("Failed to parse response: " +:+ err_message e)
    end.

(** [options.body] is set exactly under this test. *)
Definition sends_body (method : HttpMethod) (body : string) : bool :=
  permits_body method && truthy body.

(** The [options] a request that passed validation is sent with. *)
Definition options_for (method : HttpMethod) (body : string) : RequestInit :=
  {| init_method := method;
     init_headers := [("Content-Type", "application/json")];
     init_body := if sends_body method body then Some body else None |}.

Definition elapsed (w : World J) : Z :=
  Date_now host (S (clock_reads w)) - Date_now host (clock_reads w).

(** The network log after a run that made the call [sent], if any. *)
Definition logged (w : World J) (sent : option FetchCall) : list FetchCall :=
  match sent with
  | Some c => network w ++ [c]
  | None => network w
  end.

(** The world in which a run that started in [w] ends when [error] reaches
    the outer [catch], having made the call [sent], if any. *)
Definition failed_world (w : World J) (sent : option FetchCall) (error : JsError)
  : World J :=
  {| ui := {| loading := false;
              response := Some (failure_response error (elapsed w));
              errorDetails := Some (formatErrorDetails error);
              toasts := toasts (ui w)
                          ++ [ {| title := "Request failed";
                                  description := failure_message error;
                                  variant := Some "destructive" |} ] |};
     clock_reads := S (S (clock_reads w));
     network := logged w sent |}.

(** The world in which it ends when [fetch] answered the call [c] with
    [res]. *)
Definition answered_world (w : World J) (c : FetchCall) (res : FetchResponse J)
  : World J :=
  {| ui := {| loading := false;
              response := Some {| status := res_status res;
                                  statusText := res_statusText res;
                                  headers := collect_headers (res_headers res);
                                  data := decoded res;
                                  time := elapsed w;
                                  error := None |};
              errorDetails :=
                if res_ok res then None
                else Some (statusExplanation (res_status res) (res_statusText res));
              toasts := toasts (ui w) |};
     clock_reads := S (S (clock_reads w));
     network := network w ++ [c] |}.

(** The world after the early return for a missing URL. *)
Definition url_required_world (w : World J) : World J :=
  {| ui := {| loading := loading (ui w);
              response := response (ui w);
              errorDetails := errorDetails (ui w);
              toasts := toasts (ui w)
                          ++ [ {| title := "URL is required";
                                  description := "Please enter a URL to send the request";
                                  variant := Some "destructive" |} ] |};
     clock_reads := clock_reads w;
     network := network w |}.

(** The five ways a run from [w] can go, each with the world it ends in. *)
Inductive Outcome (url : string) (method : HttpMethod) (body : string)
  (w : World J) : World J -> Prop :=
| UrlRequired :
    url = "" ->
    Outcome url method body w (url_required_world w)
| InvalidUrl (e : JsError) :
    url <> "" ->
    URL_new host url = inr e ->
    Outcome url method body w
      (failed_world w None (new_Error host (InvalidUrl_message url)))
| InvalidRequestBody (parseError : JsError) :
    url <> "" ->
    URL_new host url = inl tt ->
    sends_body method body = true ->
    JSON_parse host body = inr parseError ->
    Outcome url method body w
      (failed_world w None
         (new_Error host (InvalidRequestBody_message (err_message parseError))))
| NetworkError (error : JsError) :
    url <> "" ->
    URL_new host url = inl tt ->
    (sends_body method body = true -> exists j, JSON_parse host body = inl j) ->
    fetch host (mkFetchCall url (options_for method body)) = inr error ->
    Outcome url method body w
      (failed_world w (Some (mkFetchCall url (options_for method body))) error)
| Answered (res : FetchResponse J) :
    url <> "" ->
    URL_new host url = inl tt ->
    (sends_body method body = true -> exists j, JSON_parse host body = inl j) ->
    fetch host (mkFetchCall url (options_for method body)) = inl res ->
    Outcome url method body w
      (answered_world w (mkFetchCall url (options_for method body)) res).

End Outcomes.

(** The errors that reach the outer [catch] of a run, by the step that
    throws: the URL check, the check of the request body, or [fetch]. *)
Inductive Failure {J} (host : Host J) (url : string) (method : HttpMethod)
  (body : string) : JsError -> Prop :=
| FailInvalidUrl (e : JsError) :
    URL_new host url = inr e ->
    Failure host url method body (new_Error host (InvalidUrl_message url))
| FailInvalidRequestBody (parseError : JsError) :
    URL_new host url = inl tt ->
    sends_body method body = true ->
    JSON_parse host body = inr parseError ->
    Failure host url method body
      (new_Error host (InvalidRequestBody_message (err_message parseError)))
| FailNetworkError (error : JsError) :
    URL_new host url = inl tt ->
    (sends_body method body = true -> exists j, JSON_parse host body = inl j) ->
    fetch host (mkFetchCall url (options_for method body)) = inr error ->
    Failure host url method body error.

(** No response that [fetch] resolves with has status 0: an HTTP status has
    three digits, and the status-0 responses of the Fetch standard (opaque
    ones, network errors) are never handed to a caller that uses the default
    request mode. *)
Definition http_statuses {J} (host : Host J) : Prop :=
  forall c res, fetch host c = inl res -> res_status res <> 0.

(** ** The explanation, line by line *)

(** The ten status predicates of the explanation with their texts, in the
    order of the template. *)
Definition status_predicates : list ((Z -> bool) * string) :=
  [ (fun s => (400 <=? s) && (s <? 500),
     "- Client-side error (invalid request parameters, authentication issues, etc.)");
    (fun s => 500 <=? s,
     "- Server-side error (internal errors, service unavailable, etc.)");
    (fun s => s =? 401, "- Authentication required or failed");
    (fun s => s =? 403, "- Insufficient permissions to access the resource");
    (fun s => s =? 404, "- Resource not found at the specified endpoint");
    (fun s => s =? 429, "- Rate limit exceeded (too many requests)");
    (fun s => s =? 500, "- Internal server error (generic server failure)");
    (fun s => s =? 502,
     "- Bad gateway (upstream server received an invalid response)");
    (fun s => s =? 503,
     "- Service unavailable (server is overloaded or down for maintenance)");
    (fun s => s =? 504,
     "- Gateway timeout (server didn't receive timely response from upstream server)") ].

(** The line of a predicate: its text when it matches, else nothing. *)
Definition explanation_line (s : Z) (p : (Z -> bool) * string) : string :=
  if p.1 s then p.2 else "".

(** The three lines every explanation starts with. *)
Definition explanation_heading (s : Z) (statusText : string) : string :=
  "HTTP Error " +:+ pretty s +:+ " (" +:+ statusText
    +:+ "): The server returned an error response. " +:+ LF
    +:+ "        " +:+ LF
    +:+ "Common causes for HTTP " +:+ pretty s +:+ ":".

(** ** Statements of the specification *)

(** The statement that the header goes with the body and only with it. *)
Definition content_type_iff_body (c : FetchCall) : Prop :=
  In ("Content-Type", "application/json") (init_headers (call_options c))
  <-> init_body (call_options c) <> None.

(** The statement that the explanation is there exactly for a status outside
    200..399. *)
Definition explained_iff_outside_2xx_3xx {J} (res : FetchResponse J)
  (w' : World J) : Prop :=
  errorDetails (ui w') <> None <-> ~ (200 <= res_status res < 400).

(** A run reports [InvalidUrl] when it leaves a record whose error block
    holds the message for that URL. *)
Definition reports_InvalidUrl {J} (url : string) (w' : World J) : Prop :=
  exists r blk,
    response (ui w') = Some r
    /\ error r = Some blk
    /\ message blk = InvalidUrl_message url.

(** The [content-type] header of the response contains
    [application/json]. *)
Definition content_type_contains_json {J} (res : FetchResponse J) : bool :=
  match headers_get (res_headers res) "content-type" with
  | Some ct => includes ct "application/json"
  | None => false
  end.

(** ** A browser to run examples in

    JSON values are kept as their source text.  [new URL] wants a scheme,
    [JSON.parse] knows a handful of documents, and [fetch] serves four
    addresses of one server and fails to reach anything else. *)

Module Stub.

Definition type_error (msg : string) : JsError :=
  mkJsError TypeErrorC "TypeError" msg (Some ("TypeError: " +:+ msg)).

Definition syntax_error (msg : string) : JsError :=
  mkJsError SyntaxErrorC "SyntaxError" msg (Some ("SyntaxError: " +:+ msg)).

Definition construct_url (s : string) : unit + JsError :=
  if startsWith s "http://" || startsWith s "https://" then inl tt
  else inr (type_error "Invalid URL").

Definition parse (s : string) : string + JsError :=
  if existsb (String.eqb (trim s)) ["{}"; "[]"; "[1,2]"; "null"; "true"; "7"]
  then inl (trim s)
  else inr (syntax_error "Unexpected token in JSON").

Definition items : FetchResponse string :=
  {| res_status := 200; res_statusText := "OK";
     res_headers := [("content-type", "application/json; charset=utf-8")];
     res_json := inl "[1,2]"; res_text := inl "[1,2]" |}.

Definition choices : FetchResponse string :=
  {| res_status := 300; res_statusText := "Multiple Choices";
     res_headers := [("content-type", "text/plain")];
     res_json := inr (syntax_error "Unexpected token in JSON");
     res_text := inl "see /a or /b" |}.

Definition missing : FetchResponse string :=
  {| res_status := 404; res_statusText := "Not Found";
     res_headers := [("content-type", "text/plain")];
     res_json := inr (syntax_error "Unexpected token in JSON");
     res_text := inl " {}" |}.

Definition page : FetchResponse string :=
  {| res_status := 200; res_statusText := "OK";
     res_headers := [("content-type", "text/html")];
     res_json := inr (syntax_error "Unexpected token in JSON");
     res_text := inl "{not json" |}.

Definition serve (c : FetchCall) : FetchResponse string + JsError :=
  if String.eqb (call_url c) "https://api.example.com/items" then inl items
  else if String.eqb (call_url c) "https://api.example.com/choices" then inl choices
  else if String.eqb (call_url c) "https://api.example.com/missing" then inl missing
  else if String.eqb (call_url c) "https://api.example.com/page" then inl page
  else if String.eqb (call_url c) "https://reset.example.com/" then
    inr (type_error "Load failed")
  else inr (type_error "Failed to fetch").

Definition host : Host string :=
  {| URL_new := construct_url;
     JSON_parse := parse;
     fetch := serve;
     Date_now := fun n => 1700000000000 + 40 * Z.of_nat n;
     Error_stack := fun msg => Some ("Error: " +:+ msg) |}.

(** A freshly mounted component: nothing shown, nothing sent. *)
Definition idle : World string :=
  {| ui := {| loading := false; response := None;
              errorDetails := None; toasts := [] |};
     clock_reads := 0;
     network := [] |}.

(** The world a run from [idle] ends in. *)
Definition after (url : string) (method : HttpMethod) (body : string)
  : World string :=
  (sendRequest host url method body idle).2.

End Stub.

(** The first two lines of every details string. *)
Definition details_heading (e : JsError) : string :=
  "Error Type: " +:+ err_name e +:+ LF +:+ "Message: " +:+ err_message e.

(** ** The rest of [ResponseViewer] (ResponseViewer.tsx) *)

(** [getStatusColor]: the class of the status badge. *)
Definition getStatusColor (status : Z) : string :=
  if (200 <=? status) && (status <? 300) then "bg-method-post text-white"
  else if (300 <=? status) && (status <? 400) then "bg-method-put text-white"
  else if (400 <=? status) && (status <? 500) then "bg-method-delete text-white"
  else if 500 <=? status then "bg-destructive text-white"
  else if status =? 0 then "bg-destructive text-white"
  else "bg-gray-500 text-white".

(** What the viewer needs of the browser besides [JSON.parse]:
    [JSON.stringify(v, null, 2)], which may throw, and [String(v)], for the
    decoded values [v] that a record can hold. *)
Record Serializer (J : Type) : Type := mkSerializer {
  JSON_stringify : J -> string + JsError;
  to_String : J -> string
}.

Arguments JSON_stringify {J}.
Arguments to_String {J}.

Section Viewer.

Context {J : Type}.
Variable host : Host J.
Variable printer : Serializer J.

(** [formatJson]: a string is parsed and printed again when it is JSON and
    returned as it is when parsing or printing throws; another value is
    printed, or turned into a string when printing throws.  A [DataJson] is
    taken to hold a value that is not a string (an object, an array, a
    number, ...), for which the [typeof] test of the source fails. *)
Definition formatJson (data : Data J) : string :=
  match data with
  | DataText text =>
      match JSON_parse host text with
      | inl parsed =>
          match JSON_stringify printer parsed with
          | inl out => out
          | inr _ => text
          end
      | inr _ => text
      end
  | DataJson j =>
      match JSON_stringify printer j with
      | inl out => out
      | inr _ => to_String printer j
      end
  end.

(** [isJsonResponse] *)
Definition isJsonResponse (renderedBody : string) : bool :=
  startsWith renderedBody "{" || startsWith renderedBody "[".

(** What [ResponseViewer] shows for a record: the badge, the time, the names
    of the tabs, the body tab and the error tab.  The rows of the Headers tab
    are the entries of [headers]; their order is not part of this view and
    they are left out of it. *)
Record View : Set := mkView {
  badge_class : string;
  badge_text : string;
  time_text : string;
  tab_names : list string;
  body_text : string;
  body_is_json : bool;
  error_blocks : option (list Block)
}.

(** [ResponseViewer]; [None] is the placeholder shown without a response. *)
Definition ResponseViewer (response : option (ApiResponse J)) : option View :=
  match response with
  | None => None
  | Some r =>
      let renderedBody := formatJson (data r) in
      Some {| badge_class := getStatusColor (status r) +:+ " px-2 py-1";
              badge_text := pretty (status r) +:+ " " +:+ statusText r;
              time_text := pretty (time r) +:+ "ms";
              tab_names := ["Body"; "Headers"]
                             ++ match error r with
                                | Some _ => ["Error"]
                                | None => []
                                end;
              body_text := renderedBody;
              body_is_json := isJsonResponse renderedBody;
              error_blocks := render_error r |}
  end.

End Viewer.

(** ** [RequestBody] (RequestBody.tsx) *)

(** The string a method is passed as. *)
Definition method_name (method : HttpMethod) : string :=
  match method with
  | GET => "GET"
  | POST => "POST"
  | PUT => "PUT"
  | DELETE => "DELETE"
  | PATCH => "PATCH"
  | OPTIONS => "OPTIONS"
  | HEAD => "HEAD"
  end.

Definition bodyNotSupported (method : string) : bool :=
  String.eqb method "GET" || String.eqb method "HEAD".

(** What the component renders: a notice, or the text area with the body. *)
Inductive BodyEditor : Set :=
| NotApplicable (notice : string)
| Textarea (placeholder value : string).

Definition RequestBody (method value : string) : BodyEditor :=
  if bodyNotSupported method then
    NotApplicable ("Request body is not applicable for " +:+ method +:+ " requests.")
  else Textarea "Enter JSON request body" value.

(** A printer for the example browser: a JSON value, kept as its source
    text, prints as that text. *)
Definition stub_printer : Serializer string :=
  {| JSON_stringify := fun j => inl j; to_String := fun j => j |}.

(** A server that answers every request with a 404 that has a header named
    [__proto__] next to its content type, in the example browser. *)
Definition tagged : FetchResponse string :=
  {| res_status := 404; res_statusText := "Not Found";
     res_headers := [("__proto__", "v1"); ("content-type", "text/plain")];
     res_json := inr (Stub.syntax_error "Unexpected token in JSON");
     res_text := inl "gone" |}.

Definition tagged_host : Host string :=
  {| URL_new := Stub.construct_url;
     JSON_parse := Stub.parse;
     fetch := fun _ => inl tagged;
     Date_now := Date_now Stub.host;
     Error_stack := Error_stack Stub.host |}.

(** * Properties *)

(** ** Facts about the string operations *)

Lemma startsWith_append (p rest : string) : startsWith (p +:+ rest) p = true.
Proof.
  induction p as [|c p IH]; simpl.
  - destruct rest; reflexivity.
  - rewrite Ascii.eqb_refl. exact IH.
Qed.

Lemma startsWith_weaken (s p rest : string) :
  startsWith s p = true -> startsWith (s +:+ rest) p = true.
Proof.
  revert s; induction p as [|c p IH]; intros s H.
  - destruct (s +:+ rest); reflexivity.
  - destruct s as [|d s]; simpl in *; [discriminate|].
    destruct (Ascii.eqb c d); [auto | discriminate].
Qed.

Lemma includes_cons (c : ascii) (s sub : string) :
  includes (String c s) sub = startsWith (String c s) sub || includes s sub.
Proof. reflexivity. Qed.

Lemma includes_prepend (a s sub : string) :
  includes s sub = true -> includes (a +:+ s) sub = true.
Proof.
  intros H; induction a as [|c a IH]; [exact H|].
  change (String c a +:+ s) with (String c (a +:+ s)).
  rewrite includes_cons, IH. apply orb_true_r.
Qed.

Lemma includes_extend (s rest sub : string) :
  includes s sub = true -> includes (s +:+ rest) sub = true.
Proof.
  induction s as [|c s IH]; intros H.
  - simpl in H. rewrite orb_false_r in H. destruct sub; [|discriminate].
    destruct rest; reflexivity.
  - rewrite includes_cons in H.
    change (String c s +:+ rest) with (String c (s +:+ rest)).
    rewrite includes_cons.
    apply orb_true_iff in H as [H|H].
    + change (String c (s +:+ rest)) with (String c s +:+ rest).
      rewrite (startsWith_weaken _ _ _ H). reflexivity.
    + rewrite (IH H). apply orb_true_r.
Qed.

Lemma append_empty_r (s : string) : s +:+ "" = s.
Proof.
  induction s as [|c s IH]; [reflexivity|].
  change (String c (s +:+ "") = String c s). now rewrite IH.
Qed.

Lemma includes_self (s : string) : includes s s = true.
Proof.
  destruct s as [|c s]; [reflexivity|].
  rewrite includes_cons.
  rewrite <- (append_empty_r (String c s)) at 1.
  rewrite startsWith_append. reflexivity.
Qed.

(** A template literal contains what is spliced into it. *)
Lemma includes_spliced (before s after : string) :
  includes (before +:+ s +:+ after) s = true.
Proof. apply includes_prepend, includes_extend, includes_self. Qed.

Lemma truthy_nonempty (s : string) : truthy s = true <-> s <> "".
Proof. destruct s; simpl; split; congruence. Qed.

Lemma append_assoc (a b c : string) : (a +:+ b) +:+ c = a +:+ b +:+ c.
Proof.
  induction a as [|x a IH]; [reflexivity|].
  change (String x ((a +:+ b) +:+ c) = String x (a +:+ b +:+ c)).
  now rewrite IH.
Qed.

Lemma includes_join_lines (t : string) (ls : list string) :
  In t ls -> includes (join_lines ls) t = true.
Proof.
  induction ls as [|l rest IH]; [intros []|].
  intros [->|Hin].
  - destruct rest as [|l' rest]; [apply includes_self|].
    change (includes (t +:+ LF +:+ join_lines (l' :: rest)) t = true).
    apply includes_extend, includes_self.
  - destruct rest as [|l' rest]; [destruct Hin|].
    change (includes (l +:+ LF +:+ join_lines (l' :: rest)) t = true).
    apply includes_prepend, includes_prepend, IH, Hin.
Qed.

(** ** The outcomes of a run of [sendRequest] *)

Section Runs.

Context {J : Type}.
Variable host : Host J.

(** Reading the body never throws out of its [try] and touches no state. *)
Lemma decode_body_returns (res : FetchResponse J) (w : World J) :
  decode_body host res w = (inl (decoded host res), w).
Proof.
  unfold decode_body, decoded, try_catch, bind, lift, ret, throw.
  destruct (is_json_content_type _).
  - destruct (res_json res); reflexivity.
  - destruct (res_text res) as [text|e]; [|reflexivity].
    destruct (looks_like_json text); [|reflexivity].
    destruct (JSON_parse host text); reflexivity.
Qed.

(** [sendRequest] always returns, and ends in one of the five outcomes. *)
Lemma sendRequest_outcome (url : string) (method : HttpMethod) (body : string)
  (w : World J) :
  exists w', sendRequest host url method body w = (inl tt, w')
             /\ Outcome host url method body w w'.
Proof.
  unfold sendRequest.
  destruct url as [|c url']; cbn [truthy negb].
  { eexists; split; [reflexivity|]. now apply UrlRequired. }
  set (url := String c url').
  assert (Hurl : url <> "") by discriminate.
  assert (Hopt : {| init_method := method;
                    init_headers := [("Content-Type", "application/json")];
                    init_body := if permits_body method && truthy body
                                 then Some body else None |}
                 = options_for method body) by reflexivity.
  pose proof (eq_refl : sends_body method body = permits_body method && truthy body)
    as Hs.
  cbv [finally try_catch bind setLoading setResponse setErrorDetails toast
       modify_ui now do_fetch lift ret throw
       ui clock_reads network init_method init_headers
       loading response errorDetails toasts].
  destruct (URL_new host url) as [[]|e] eqn:Hnew.
  2:{ eexists; split; [reflexivity|]. eapply InvalidUrl; eauto. }
  destruct (permits_body method && truthy body) eqn:Hb.
  - destruct (JSON_parse host body) as [j|pe] eqn:Hparse.
    2:{ eexists; split; [reflexivity|]. eapply InvalidRequestBody; eauto. }
    rewrite Hopt.
    destruct (fetch host _) as [res|err] eqn:Hfetch.
    + rewrite decode_body_returns.
      eexists; split; [|eapply Answered; eauto].
      unfold answered_world, elapsed.
      destruct (res_ok res); reflexivity.
    + eexists; split; [reflexivity|]. eapply NetworkError; eauto.
  - rewrite Hopt.
    destruct (fetch host _) as [res|err] eqn:Hfetch.
    + rewrite decode_body_returns.
      eexists; split; [|eapply Answered; eauto; rewrite Hs; discriminate].
      unfold answered_world, elapsed.
      destruct (res_ok res); reflexivity.
    + eexists; split; [reflexivity|]. eapply NetworkError; eauto.
      rewrite Hs; discriminate.
Qed.

Lemma log_not_extended (l : list FetchCall) (c : FetchCall) : l <> l ++ [c].
Proof.
  intros H. apply (f_equal (@List.length _)) in H.
  rewrite List.length_app in H. simpl in H. lia.
Qed.

Lemma log_extension_unique (l : list FetchCall) (c1 c2 : FetchCall) :
  l ++ [c1] = l ++ [c2] -> c1 = c2.
Proof. intros H. apply List.app_inv_head in H. congruence. Qed.

(** A run that logged the call [c], which [fetch] answered with [res], ends
    in [answered_world]. *)
Lemma run_answered url method body (w w' : World J) c res :
  sendRequest host url method body w = (inl tt, w') ->
  network w' = network w ++ [c] ->
  fetch host c = inl res ->
  w' = answered_world host w c res.
Proof.
  intros Hrun Hlog Hfetch.
  destruct (sendRequest_outcome url method body w) as (w1 & Hrun1 & Hout).
  assert (w1 = w') by congruence; subst w1.
  destruct Hout; simpl in Hlog.
  - now apply log_not_extended in Hlog.
  - now apply log_not_extended in Hlog.
  - now apply log_not_extended in Hlog.
  - apply log_extension_unique in Hlog. subst c. congruence.
  - apply log_extension_unique in Hlog. subst c.
    assert (res0 = res) by congruence. now subst.
Qed.

(** A run that logged the call [c], which [fetch] rejected with [error],
    ends in [failed_world]. *)
Lemma run_rejected url method body (w w' : World J) c error :
  sendRequest host url method body w = (inl tt, w') ->
  network w' = network w ++ [c] ->
  fetch host c = inr error ->
  w' = failed_world host w (Some c) error.
Proof.
  intros Hrun Hlog Hfetch.
  destruct (sendRequest_outcome url method body w) as (w1 & Hrun1 & Hout).
  assert (w1 = w') by congruence; subst w1.
  destruct Hout; simpl in Hlog.
  - now apply log_not_extended in Hlog.
  - now apply log_not_extended in Hlog.
  - now apply log_not_extended in Hlog.
  - apply log_extension_unique in Hlog. subst c.
    assert (error0 = error) by congruence. now subst.
  - apply log_extension_unique in Hlog. subst c. congruence.
Qed.

End Runs.

(** A run in which [error] reaches the outer [catch] ends in
    [failed_world]. *)
Lemma failure_outcome {J} (host : Host J) url method body (w w' : World J) error :
  url <> "" ->
  sendRequest host url method body w = (inl tt, w') ->
  Failure host url method body error ->
  exists sent, w' = failed_world host w sent error.
Proof.
  intros Hurl Hrun Hfail.
  destruct (sendRequest_outcome host url method body w) as (w1 & Hrun1 & Hout).
  assert (w1 = w') by congruence; subst w1.
  destruct Hout as [ | | pe ? ? Hs Hpe | err ? ? Hok Hf | res ? ? Hok Hf ];
    destruct Hfail as [ e' He' | pe' Hn' Hs' Hpe' | err' Hn' Hok' Hf' ];
    try congruence; try (eexists; reflexivity).
  - assert (pe = pe') by congruence. subst. eexists; reflexivity.
  - destruct (Hok' Hs) as [j Hj]. congruence.
  - destruct (Hok Hs') as [j Hj]. congruence.
  - assert (err = err') by congruence. subst. eexists; reflexivity.
  - destruct (Hok Hs') as [j Hj]. congruence.
Qed.

(** The example server answers with 200, 300 and 404 only. *)
Lemma stub_http_statuses : http_statuses Stub.host.
Proof.
  intros c res. simpl. unfold Stub.serve.
  repeat match goal with
         | |- context [String.eqb ?a ?b] => destruct (String.eqb a b)
         end;
    intros [= <-]; discriminate.
Qed.

(** ** The status explanation *)

(** The template literal is its heading followed by one line per predicate. *)
Lemma statusExplanation_lines (s : Z) (statusText : string) :
  statusExplanation s statusText
  = explanation_heading s statusText +:+ LF
      +:+ join_lines (map (explanation_line s) status_predicates).
Proof.
  unfold explanation_heading. rewrite !append_assoc. reflexivity.
Qed.

(** C1, as stated, fails: [https://api.example.com/choices] answers with
    status 300, which is in the 3xx range, and the explanation is set. *)
Lemma explanation_set_for_3xx :
  let w' := Stub.after "https://api.example.com/choices" GET "" in
  exists c,
    network w' = [c]
    /\ fetch Stub.host c = inl Stub.choices
    /\ res_status Stub.choices = 300
    /\ errorDetails (ui w') <> None
    /\ ~ explained_iff_outside_2xx_3xx Stub.choices w'.
Proof.
  eexists. split; [vm_compute; reflexivity|].
  split; [reflexivity|]. split; [reflexivity|].
  assert (H : errorDetails (ui (Stub.after "https://api.example.com/choices" GET ""))
              <> None) by (vm_compute; discriminate).
  split; [exact H|].
  intros [Hl _]. apply (Hl H). simpl. lia.
Qed.

(** C1, amended.  For a response that was received, the explanation is set
    exactly when the status is outside 200..299 (when [res.ok] is false), and
    is cleared otherwise.  The explanation is a heading that names the status,
    followed by one line per status predicate in a fixed order; the line holds
    the text of the predicate when the status matches it and is empty when it
    does not, so the text of every matching predicate occurs in it. *)
Theorem explanation_iff_not_2xx {J} (host : Host J) (url : string)
  (method : HttpMethod) (body : string) (w w' : World J) (c : FetchCall)
  (res : FetchResponse J) :
  sendRequest host url method body w = (inl tt, w') ->
  network w' = network w ++ [c] ->
  fetch host c = inl res ->
  let s := res_status res in
  let text := statusExplanation s (res_statusText res) in
  errorDetails (ui w') = (if (200 <=? s) && (s <=? 299) then None else Some text)
  /\ (errorDetails (ui w') <> None <-> ~ (200 <= s <= 299))
  /\ text = explanation_heading s (res_statusText res) +:+ LF
              +:+ join_lines (map (explanation_line s) status_predicates)
  /\ Forall (fun p => p.1 s = true -> includes text p.2 = true) status_predicates.
Proof.
  intros Hrun Hlog Hfetch s text.
  rewrite (run_answered host _ _ _ _ _ _ _ Hrun Hlog Hfetch).
  cbn [answered_world ui errorDetails]. unfold res_ok. fold s. fold text.
  split; [reflexivity|]. split.
  - destruct (Z.leb_spec 200 s), (Z.leb_spec s 299); simpl;
      split; try congruence; try lia; intros _; lia.
  - split; [apply statusExplanation_lines|].
    apply List.Forall_forall. intros p Hp Hmatch.
    subst text. rewrite statusExplanation_lines.
    apply includes_prepend, includes_prepend, includes_join_lines.
    replace p.2 with (explanation_line s p)
      by (unfold explanation_line; now rewrite Hmatch).
    now apply List.in_map.
Qed.

Lemma explanation_iff_not_2xx_witness :
  let w' := Stub.after "https://api.example.com/missing" GET "" in
  errorDetails (ui w')
  = Some (statusExplanation 404 "Not Found")
  /\ includes (statusExplanation 404 "Not Found")
       "- Resource not found at the specified endpoint" = true.
Proof.
  pose proof (explanation_iff_not_2xx Stub.host
                "https://api.example.com/missing" GET "" Stub.idle
                (Stub.after "https://api.example.com/missing" GET "")
                (mkFetchCall "https://api.example.com/missing"
                   (options_for GET ""))
                Stub.missing eq_refl eq_refl eq_refl) as (H1 & _ & _ & H4).
  split; [exact H1|].
  vm_compute. reflexivity.
Defined.

(** ** The Content-Type header *)

(** C2, as stated, fails: a GET of [https://api.example.com/items] makes one
    call, which has no body and still carries
    [Content-Type: application/json]. *)
Lemma content_type_sent_without_body :
  exists c,
    network (Stub.after "https://api.example.com/items" GET "") = [c]
    /\ init_body (call_options c) = None
    /\ In ("Content-Type", "application/json") (init_headers (call_options c))
    /\ ~ content_type_iff_body c.
Proof.
  eexists. split; [vm_compute; reflexivity|].
  split; [reflexivity|]. split; [now left|].
  intros [H _]. apply H; [now left | reflexivity].
Qed.

(** C2, amended.  Every call [sendRequest] makes carries
    [Content-Type: application/json] as its only header, with a body or
    without one; the body, when there is one, is the raw body string, and
    there is one exactly when the method is neither GET nor HEAD and the body
    string is not empty. *)
Theorem content_type_always_sent {J} (host : Host J) (url : string)
  (method : HttpMethod) (body : string) (w : World J) :
  exists w',
    sendRequest host url method body w = (inl tt, w')
    /\ (network w' = network w
        \/ exists c,
             network w' = network w ++ [c]
             /\ init_headers (call_options c) = [("Content-Type", "application/json")]
             /\ init_body (call_options c)
                = if permits_body method && truthy body then Some body else None).
Proof.
  destruct (sendRequest_outcome host url method body w) as (w' & Hrun & Hout).
  exists w'. split; [exact Hrun|].
  destruct Hout; simpl; auto; right; eexists; repeat split; reflexivity.
Qed.

(** ** Failure records *)

(** C3, as stated, fails: the empty string is a URL that [new URL] rejects,
    so the failure of the URL check is there, but the run returns before the
    check and leaves no record, of status 0 or any other. *)
Lemma empty_url_failure_without_record :
  Failure Stub.host "" GET "" (new_Error Stub.host (InvalidUrl_message ""))
  /\ response (ui (Stub.after "" GET "")) = None
  /\ ~ (exists r, response (ui (Stub.after "" GET "")) = Some r /\ status r = 0).
Proof.
  split; [eapply FailInvalidUrl; reflexivity|]. split; [reflexivity|].
  intros (r & Hr & _). vm_compute in Hr. discriminate.
Qed.

(** C3, amended.  For a URL that is not empty, whatever error reaches the
    outer [catch], the run leaves a record with status 0, no headers, the
    error message as body, the elapsed time, and an error block with the
    message, the name of the error, its stack when it has one, and the
    details string; the message is that of the error, or the fixed text for
    an error without one.  A run that does leave a record of status 0 has
    failed in one of these ways before any response was there, and a run that
    obtained a response records the status of that response, which is not 0
    for an error status. *)
Theorem failure_record {J} (host : Host J) (url : string) (method : HttpMethod)
  (body : string) (w w' : World J) :
  url <> "" ->
  sendRequest host url method body w = (inl tt, w') ->
  (forall thrown, Failure host url method body thrown ->
     exists r blk,
       response (ui w') = Some r
       /\ status r = 0
       /\ headers r = ∅
       /\ data r = DataText (message blk)
       /\ time r = elapsed host w
       /\ error r = Some blk
       /\ message blk = or_else (err_message thrown) "Unknown error occurred"
       /\ type blk = Some (err_name thrown)
       /\ stack blk = err_stack thrown
       /\ details blk = Some (formatErrorDetails thrown))
  /\ (http_statuses host ->
      forall r, response (ui w') = Some r -> status r = 0 ->
        exists thrown, Failure host url method body thrown
                       /\ error r <> None)
  /\ (forall c res,
        network w' = network w ++ [c] -> fetch host c = inl res ->
        exists r, response (ui w') = Some r
                  /\ status r = res_status res
                  /\ (400 <= res_status res -> status r <> 0)).
Proof.
  intros Hurl Hrun. split; [|split].
  - intros thrown Hfail.
    destruct (failure_outcome host _ _ _ _ _ _ Hurl Hrun Hfail) as [sent ->].
    do 2 eexists. repeat split; reflexivity.
  - intros Hhttp r Hr Hzero.
    destruct (sendRequest_outcome host url method body w) as (w1 & Hrun1 & Hout).
    assert (w1 = w') by congruence; subst w1.
    destruct Hout as [ | e ? He | pe ? Hn Hs Hpe | err ? Hn Hok Hf | res ? Hn Hok Hf ];
      try congruence; simpl in Hr; injection Hr as <-.
    + eexists. split; [eapply FailInvalidUrl; eauto | discriminate].
    + eexists. split; [eapply FailInvalidRequestBody; eauto | discriminate].
    + eexists. split; [eapply FailNetworkError; eauto | discriminate].
    + simpl in Hzero. now apply Hhttp in Hf.
  - intros c res Hlog Hfetch.
    rewrite (run_answered host _ _ _ _ _ _ _ Hrun Hlog Hfetch).
    eexists. split; [reflexivity|]. simpl. split; [reflexivity | lia].
Qed.

Lemma failure_record_witness :
  Failure Stub.host "https://down.example.com/" PUT "[]"
    (Stub.type_error "Failed to fetch")
  /\ exists r,
       response (ui (Stub.after "https://down.example.com/" PUT "[]")) = Some r
       /\ status r = 0
       /\ data r = DataText "Failed to fetch".
Proof.
  assert (Hfail : Failure Stub.host "https://down.example.com/" PUT "[]"
                    (Stub.type_error "Failed to fetch")).
  { apply FailNetworkError; [reflexivity | | reflexivity].
    intros _. eexists. reflexivity. }
  split; [exact Hfail|].
  destruct (failure_record Stub.host "https://down.example.com/" PUT "[]"
              Stub.idle (Stub.after "https://down.example.com/" PUT "[]"))
    as (H1 & _ & _); [discriminate | reflexivity |].
  destruct (H1 _ Hfail) as (r & blk & Hr & Hst & _ & Hdata & _ & _ & Hmsg & _).
  exists r. repeat split; try assumption.
  rewrite Hdata, Hmsg. reflexivity.
Defined.

(** ** Invalid URLs *)

(** C4, as stated, fails: the empty string is not a well-formed URL, and a
    run on it reports nothing. *)
Lemma empty_url_not_reported :
  (exists e, URL_new Stub.host "" = inr e)
  /\ response (ui (Stub.after "" GET "")) = None
  /\ ~ reports_InvalidUrl "" (Stub.after "" GET "").
Proof.
  split; [eexists; reflexivity|]. split; [reflexivity|].
  intros (r & blk & Hr & _). vm_compute in Hr. discriminate.
Qed.

(** C4, amended.  For every URL string that is not empty and that [new URL]
    rejects, the run ends with a record of status 0 whose body and error
    block hold the [InvalidUrl] message, the message contains the offending
    string, and no network call is made. *)
Theorem invalid_url_reported {J} (host : Host J) (url : string)
  (method : HttpMethod) (body : string) (w : World J) (e : JsError) :
  url <> "" ->
  URL_new host url = inr e ->
  exists w' r blk,
    sendRequest host url method body w = (inl tt, w')
    /\ response (ui w') = Some r
    /\ status r = 0
    /\ data r = DataText (InvalidUrl_message url)
    /\ error r = Some blk
    /\ message blk = InvalidUrl_message url
    /\ type blk = Some "Error"
    /\ reports_InvalidUrl url w'
    /\ includes (InvalidUrl_message url) url = true
    /\ network w' = network w.
Proof.
  intros Hurl Hnew.
  destruct (sendRequest_outcome host url method body w) as (w' & Hrun & Hout).
  destruct Hout; try congruence.
  do 3 eexists. split; [exact Hrun|].
  repeat split; try reflexivity.
  - do 2 eexists. repeat split; reflexivity.
  - apply includes_spliced.
Qed.

Lemma invalid_url_reported_witness :
  "api.example.com/items" <> ""
  /\ URL_new Stub.host "api.example.com/items" = inr (Stub.type_error "Invalid URL")
  /\ reports_InvalidUrl "api.example.com/items"
       (Stub.after "api.example.com/items" GET "")
  /\ network (Stub.after "api.example.com/items" GET "") = [].
Proof.
  split; [discriminate|]. split; [reflexivity|].
  destruct (invalid_url_reported Stub.host "api.example.com/items" GET ""
              Stub.idle (Stub.type_error "Invalid URL"))
    as (w' & r & blk & Hrun & _ & _ & _ & _ & _ & _ & Hrep & _ & Hnet);
    [discriminate | reflexivity |].
  assert (Hw : w' = Stub.after "api.example.com/items" GET "").
  { unfold Stub.after. rewrite Hrun. reflexivity. }
  rewrite <- Hw. split; [exact Hrep | exact Hnet].
Defined.

(** ** Invalid request bodies *)

(** C5.  With a method other than GET and HEAD and a body string that is not
    empty and that [JSON.parse] rejects, no network call is made, whatever
    the URL.  When the URL passed the first step (it is not empty and
    [new URL] accepts it), the run ends with a record of status 0 whose body
    and error block hold the [InvalidRequestBody] message, and the message
    contains the message of the parser. *)
Theorem invalid_body_reported {J} (host : Host J) (url : string)
  (method : HttpMethod) (body : string) (w : World J) (parseError : JsError) :
  method <> GET -> method <> HEAD ->
  body <> "" ->
  JSON_parse host body = inr parseError ->
  exists w',
    sendRequest host url method body w = (inl tt, w')
    /\ network w' = network w
    /\ (url <> "" -> URL_new host url = inl tt ->
        exists r blk,
          response (ui w') = Some r
          /\ status r = 0
          /\ data r = DataText (InvalidRequestBody_message (err_message parseError))
          /\ error r = Some blk
          /\ message blk = InvalidRequestBody_message (err_message parseError)
          /\ type blk = Some "Error"
          /\ includes (message blk) (err_message parseError) = true).
Proof.
  intros Hget Hhead Hbody Hparse.
  assert (Hs : sends_body method body = true).
  { unfold sends_body. apply andb_true_iff. split.
    - destruct method; try reflexivity; congruence.
    - now apply truthy_nonempty. }
  destruct (sendRequest_outcome host url method body w) as (w' & Hrun & Hout).
  exists w'. split; [exact Hrun|].
  destruct Hout as [ | | pe ? ? ? Hpe | ? ? ? Hok | ? ? ? Hok ].
  - split; [reflexivity | congruence].
  - split; [reflexivity | congruence].
  - assert (pe = parseError) by congruence; subst pe.
    split; [reflexivity|]. intros _ _.
    do 2 eexists. repeat split; try reflexivity.
    apply includes_spliced.
  - destruct (Hok Hs) as [j Hj]. congruence.
  - destruct (Hok Hs) as [j Hj]. congruence.
Qed.

Lemma invalid_body_reported_witness :
  JSON_parse Stub.host "{" = inr (Stub.syntax_error "Unexpected token in JSON")
  /\ (exists r,
        response (ui (Stub.after "https://api.example.com/items" POST "{")) = Some r
        /\ status r = 0
        /\ data r = DataText (InvalidRequestBody_message "Unexpected token in JSON"))
  /\ network (Stub.after "https://api.example.com/items" POST "{") = [].
Proof.
  split; [reflexivity|].
  destruct (invalid_body_reported Stub.host "https://api.example.com/items" POST
              "{" Stub.idle (Stub.syntax_error "Unexpected token in JSON"))
    as (w' & Hrun & Hnet & Hrep);
    [discriminate | discriminate | discriminate | reflexivity |].
  assert (Hw : w' = Stub.after "https://api.example.com/items" POST "{").
  { unfold Stub.after. rewrite Hrun. reflexivity. }
  rewrite <- Hw. split; [|exact Hnet].
  destruct Hrep as (r & blk & Hr & Hst & Hdata & _); [discriminate | reflexivity |].
  exists r. repeat split; assumption.
Defined.

(** ** The body of GET and HEAD requests *)

(** C6.  A GET or HEAD run does not look at the body string: two runs that
    differ only in the body are the same computation, so whether the body is
    JSON cannot matter, and the call that is made, if any, has no body. *)
Theorem get_head_ignore_body {J} (host : Host J) (url : string)
  (body body' : string) (w : World J) :
  sendRequest host url GET body w = sendRequest host url GET body' w
  /\ sendRequest host url HEAD body w = sendRequest host url HEAD body' w
  /\ Forall (fun method =>
       exists w',
         sendRequest host url method body w = (inl tt, w')
         /\ (network w' = network w
             \/ exists c, network w' = network w ++ [c]
                          /\ init_body (call_options c) = None))
       [GET; HEAD].
Proof.
  split; [reflexivity|]. split; [reflexivity|].
  assert (H : forall method, permits_body method = false ->
     exists w',
       sendRequest host url method body w = (inl tt, w')
       /\ (network w' = network w
           \/ exists c, network w' = network w ++ [c]
                        /\ init_body (call_options c) = None)).
  { intros method Hm.
    destruct (sendRequest_outcome host url method body w) as (w' & Hrun & Hout).
    exists w'. split; [exact Hrun|].
    assert (Hs : sends_body method body = false)
      by (unfold sends_body; now rewrite Hm).
    destruct Hout; simpl; auto; right; eexists; split; try reflexivity;
      simpl; now rewrite Hs. }
  repeat constructor; apply H; reflexivity.
Qed.

(** ** Decoding the response body *)

(** The test of the source, which also asks for a non-empty header value,
    says no more than that. *)
Lemma is_json_content_type_contains {J} (res : FetchResponse J) :
  is_json_content_type (headers_get (res_headers res) "content-type")
  = content_type_contains_json res.
Proof.
  unfold is_json_content_type, content_type_contains_json.
  destruct (headers_get _ _) as [[|a ct]|]; reflexivity.
Qed.

(** C7.  For a response that was received, the body in the record is decoded
    as follows.  When the [content-type] header contains [application/json],
    it is what [res.json()] gives.  Otherwise the body is read as text; when
    the trimmed text starts with an opening brace or bracket, [JSON.parse] is
    tried on the text and its value is used when it succeeds, and the raw
    text is kept when it fails; text that starts otherwise is kept as it is.
    When reading the body throws, the body is a placeholder with the message
    of the error. *)
Theorem response_body_decoding {J} (host : Host J) (url : string)
  (method : HttpMethod) (body : string) (w w' : World J) (c : FetchCall)
  (res : FetchResponse J) :
  sendRequest host url method body w = (inl tt, w') ->
  network w' = network w ++ [c] ->
  fetch host c = inl res ->
  exists r,
    response (ui w') = Some r
    /\ (content_type_contains_json res = true ->
          (forall j, res_json res = inl j -> data r = DataJson j)
          /\ (forall e, res_json res = inr e ->
                data r = DataText ("Failed to parse response: " +:+ err_message e)))
    /\ (content_type_contains_json res = false ->
          (forall text, res_text res = inl text ->
             let opens := startsWith (trim text) "{" || startsWith (trim text) "[" in
             (opens = true ->
                (forall j, JSON_parse host text = inl j -> data r = DataJson j)
                /\ (forall e, JSON_parse host text = inr e -> data r = DataText text))
             /\ (opens = false -> data r = DataText text))
          /\ (forall e, res_text res = inr e ->
                data r = DataText ("Failed to parse response: " +:+ err_message e))).
Proof.
  intros Hrun Hlog Hfetch.
  rewrite (run_answered host _ _ _ _ _ _ _ Hrun Hlog Hfetch).
  eexists. split; [reflexivity|].
  cbn [data]. unfold decoded. rewrite is_json_content_type_contains.
  split; intros ->.
  - split; intros x ->; reflexivity.
  - split.
    + intros text ->. fold (looks_like_json text). cbv zeta.
      split.
      * intros ->. split; intros x ->; reflexivity.
      * intros ->. reflexivity.
    + intros e ->. reflexivity.
Qed.

Lemma response_body_decoding_witness :
  content_type_contains_json Stub.missing = false
  /\ res_text Stub.missing = inl " {}"
  /\ exists r,
       response (ui (Stub.after "https://api.example.com/missing" GET "")) = Some r
       /\ data r = DataJson "{}".
Proof.
  split; [reflexivity|]. split; [reflexivity|].
  destruct (response_body_decoding Stub.host "https://api.example.com/missing"
              GET "" Stub.idle
              (Stub.after "https://api.example.com/missing" GET "")
              (mkFetchCall "https://api.example.com/missing" (options_for GET ""))
              Stub.missing eq_refl eq_refl eq_refl)
    as (r & Hr & _ & Htext).
  exists r. split; [exact Hr|].
  destruct (Htext eq_refl) as [Hread _].
  destruct (Hread " {}" eq_refl) as [Hopens _].
  destruct (Hopens eq_refl) as [Hparsed _].
  exact (Hparsed "{}" eq_refl).
Defined.

(** ** The help for network errors *)

Lemma optional_field_no_help (label : string) (x : option string)
  (note : NetworkHelp) :
  ~ In (Help note) (optional_field label x).
Proof.
  unfold optional_field. destruct x as [s|]; [destruct (truthy s)|]; simpl;
    intuition discriminate.
Qed.

(** The fallback text is not a "Failed to fetch" message, so the test on
    the message of the record is the test on the message of the error. *)
Lemma failure_message_signature (e : JsError) :
  includes (failure_message e) "Failed to fetch"
  = includes (err_message e) "Failed to fetch".
Proof.
  unfold failure_message, or_else.
  destruct (err_message e); reflexivity.
Qed.

(** C8.  When [fetch] rejects, the record has status 0 and an error tab.
    When the message of the rejection contains "Failed to fetch", the tab
    ends with the network help, whose lists name the connection, the URL,
    CORS, the certificate, firewall or proxy, and DNS; when it does not, the
    tab has no help. *)
Theorem failed_to_fetch_help {J} (host : Host J) (url : string)
  (method : HttpMethod) (body : string) (w w' : World J) (c : FetchCall)
  (e : JsError) :
  sendRequest host url method body w = (inl tt, w') ->
  network w' = network w ++ [c] ->
  fetch host c = inr e ->
  exists r blocks,
    response (ui w') = Some r
    /\ status r = 0
    /\ render_error r = Some blocks
    /\ (includes (err_message e) "Failed to fetch" = true ->
          In (Help network_help) blocks)
    /\ (includes (err_message e) "Failed to fetch" = false ->
          forall note, ~ In (Help note) blocks)
    /\ Forall (fun topic =>
                 existsb (fun line => includes line topic)
                   (help_causes network_help ++ help_steps network_help) = true)
         ["internet connection"; "URL"; "CORS"; "SSL certificate";
          "Firewall or proxy"; "DNS"].
Proof.
  intros Hrun Hlog Hfetch.
  rewrite (run_rejected host _ _ _ _ _ _ _ Hrun Hlog Hfetch).
  do 2 eexists. split; [reflexivity|]. split; [reflexivity|].
  split; [reflexivity|].
  unfold error_tab, getNetworkErrorHelp. cbn [message].
  rewrite failure_message_signature.
  split; [|split].
  - intros ->. rewrite !List.in_app_iff. do 5 right. now left.
  - intros -> note Hin.
    rewrite !List.in_app_iff in Hin.
    destruct Hin as [[Hin|[]]|[Hin|[Hin|[Hin|[Hin|[]]]]]];
      [discriminate | now apply optional_field_no_help in Hin ..].
  - repeat constructor.
Qed.

Lemma failed_to_fetch_help_witness :
  fetch Stub.host (mkFetchCall "https://down.example.com/" (options_for GET ""))
  = inr (Stub.type_error "Failed to fetch")
  /\ exists r blocks,
       response (ui (Stub.after "https://down.example.com/" GET "")) = Some r
       /\ status r = 0
       /\ render_error r = Some blocks
       /\ In (Help network_help) blocks.
Proof.
  split; [reflexivity|].
  destruct (failed_to_fetch_help Stub.host "https://down.example.com/" GET ""
              Stub.idle (Stub.after "https://down.example.com/" GET "")
              (mkFetchCall "https://down.example.com/" (options_for GET ""))
              (Stub.type_error "Failed to fetch") eq_refl eq_refl eq_refl)
    as (r & blocks & Hr & Hst & Hrender & Hhelp & _).
  exists r, blocks. repeat split; try assumption.
  apply Hhelp. reflexivity.
Defined.

(** ** The early return for a missing URL *)

(** C9.  With the empty string as URL, [sendRequest] returns at once: the
    response shown before, the error details and the loading flag are what
    they were, and the network log and the clock are untouched.  All the run
    does is show the toast that asks for a URL. *)
Theorem empty_url_returns_early {J} (host : Host J) (method : HttpMethod)
  (body : string) (w : World J) :
  exists w',
    sendRequest host "" method body w = (inl tt, w')
    /\ response (ui w') = response (ui w)
    /\ errorDetails (ui w') = errorDetails (ui w)
    /\ loading (ui w') = loading (ui w)
    /\ network w' = network w
    /\ clock_reads w' = clock_reads w
    /\ toasts (ui w') = toasts (ui w)
         ++ [ {| title := "URL is required";
                 description := "Please enter a URL to send the request";
                 variant := Some "destructive" |} ].
Proof.
  exists (url_required_world w). repeat split; reflexivity.
Qed.

(** ** The error block and the status *)

Lemma headers_get_app (hs hs' : list (string * string)) (name : string) :
  headers_get (hs ++ hs') name
  = match headers_get hs name with
    | Some v => Some v
    | None => headers_get hs' name
    end.
Proof.
  induction hs as [|[k v] hs IH]; simpl; [reflexivity|].
  destruct (String.eqb k name); [reflexivity | exact IH].
Qed.

Lemma fold_headers_lookup (hs : list (string * string))
  (acc : gmap string string) (name : string) :
  fold_left (fun acc kv => assign_header acc kv.1 kv.2) hs acc !! name
  = if String.eqb name "__proto__" then acc !! name
    else match headers_get (rev hs) name with
         | Some v => Some v
         | None => acc !! name
         end.
Proof.
  revert acc; induction hs as [|[k v] hs IH]; intros acc; simpl.
  { now destruct (String.eqb name "__proto__"). }
  rewrite IH, headers_get_app. simpl. unfold assign_header.
  destruct (String.eqb name "__proto__") eqn:Hname.
  - apply String.eqb_eq in Hname.
    destruct (String.eqb_spec k "__proto__") as [Hk|Hk]; [reflexivity|].
    apply lookup_insert_ne. congruence.
  - apply String.eqb_neq in Hname.
    destruct (headers_get (rev hs) name); [reflexivity|].
    destruct (String.eqb_spec k name) as [Heq|Hne].
    + destruct (String.eqb_spec k "__proto__") as [Hk|Hk]; [congruence|].
      rewrite Heq. apply lookup_insert_eq.
    + destruct (String.eqb k "__proto__"); [reflexivity|].
      now apply lookup_insert_ne.
Qed.

(** The collected mapping holds, for every name but [__proto__], the value
    that was visited last for it, and nothing under [__proto__]. *)
Lemma collect_headers_lookup (hs : list (string * string)) (name : string) :
  collect_headers hs !! name
  = if String.eqb name "__proto__" then None else headers_get (rev hs) name.
Proof.
  unfold collect_headers. rewrite fold_headers_lookup.
  destruct (String.eqb name "__proto__"); [apply lookup_empty|].
  destruct (headers_get (rev hs) name); [reflexivity | apply lookup_empty].
Qed.

(** C10.  The claim asks for the full headers of a received response in
    the record.  The server of [tagged_host] answers with status 404 and two
    headers, one of them named [__proto__].  The record has the status of
    the response and no error block, as claimed, and the content type, but
    nothing under [__proto__]: the assignment that copies the headers does
    not store that one. *)
Lemma proto_header_lost :
  let w' := (sendRequest tagged_host "https://api.example.com/items" GET ""
               Stub.idle).2 in
  network w' = [mkFetchCall "https://api.example.com/items" (options_for GET "")]
  /\ fetch tagged_host
       (mkFetchCall "https://api.example.com/items" (options_for GET ""))
     = inl tagged
  /\ headers_get (res_headers tagged) "__proto__" = Some "v1"
  /\ exists r,
       response (ui w') = Some r
       /\ status r = 404
       /\ error r = None
       /\ headers r !! "content-type" = Some "text/plain"
       /\ headers r !! "__proto__" = None.
Proof.
  split; [reflexivity|]. split; [reflexivity|]. split; [reflexivity|].
  eexists. split; [reflexivity|]. repeat split; vm_compute; reflexivity.
Qed.

(** X18.  In the record a run leaves, the error block is there exactly when
    the status is 0.  For a response that was received, whatever its status,
    the record has the status and status text of the response, the decoded
    body, no error block, and its headers: each name other than [__proto__]
    with the value visited last for it, and nothing under [__proto__]. *)
Theorem error_block_iff_status_zero {J} (host : Host J) (url : string)
  (method : HttpMethod) (body : string) (w w' : World J) :
  url <> "" ->
  http_statuses host ->
  sendRequest host url method body w = (inl tt, w') ->
  exists r,
    response (ui w') = Some r
    /\ (error r <> None <-> status r = 0)
    /\ (forall c res,
          network w' = network w ++ [c] -> fetch host c = inl res ->
          status r = res_status res
          /\ statusText r = res_statusText res
          /\ (forall name,
                headers r !! name
                = if String.eqb name "__proto__" then None
                  else headers_get (rev (res_headers res)) name)
          /\ data r = decoded host res
          /\ error r = None).
Proof.
  intros Hurl Hhttp Hrun.
  destruct (sendRequest_outcome host url method body w) as (w1 & Hrun1 & Hout).
  assert (w1 = w') by congruence; subst w1.
  assert (Hfailed : forall sent thrown,
    w' = failed_world host w sent thrown ->
    (forall c res, network w' = network w ++ [c] -> fetch host c = inl res -> False) ->
    exists r,
      response (ui w') = Some r
      /\ (error r <> None <-> status r = 0)
      /\ (forall c res,
            network w' = network w ++ [c] -> fetch host c = inl res ->
            status r = res_status res
            /\ statusText r = res_statusText res
            /\ (forall name,
                  headers r !! name
                  = if String.eqb name "__proto__" then None
                    else headers_get (rev (res_headers res)) name)
            /\ data r = decoded host res
            /\ error r = None)).
  { intros sent thrown -> Hno. eexists. split; [reflexivity|]. split.
    - simpl. split; [reflexivity | discriminate].
    - intros c res Hlog Hf. destruct (Hno c res Hlog Hf). }
  destruct Hout as [ | e ? He | pe ? Hn Hs Hpe | err ? Hn Hok Hf | res ? Hn Hok Hf ];
    try congruence.
  - eapply Hfailed; [reflexivity|]. simpl. intros c res Hlog _.
    now apply log_not_extended in Hlog.
  - eapply Hfailed; [reflexivity|]. simpl. intros c res Hlog _.
    now apply log_not_extended in Hlog.
  - eapply Hfailed; [reflexivity|]. simpl. intros c res Hlog Hres.
    apply log_extension_unique in Hlog. subst c. congruence.
  - eexists. split; [reflexivity|]. split.
    + simpl. split; [congruence|]. intros Hz. now apply Hhttp in Hf.
    + intros c res' Hlog Hres. simpl in Hlog.
      apply log_extension_unique in Hlog. subst c.
      assert (res' = res) by congruence. subst res'. simpl.
      repeat split; try reflexivity.
      intros name. apply collect_headers_lookup.
Qed.

Lemma error_block_iff_status_zero_witness :
  http_statuses Stub.host
  /\ exists r,
       response (ui (Stub.after "https://api.example.com/missing" GET "")) = Some r
       /\ status r = 404
       /\ headers r !! "content-type" = Some "text/plain"
       /\ error r = None.
Proof.
  split; [exact stub_http_statuses|].
  destruct (error_block_iff_status_zero Stub.host
              "https://api.example.com/missing" GET "" Stub.idle
              (Stub.after "https://api.example.com/missing" GET ""))
    as (r & Hr & _ & Hres); [discriminate | exact stub_http_statuses | reflexivity |].
  destruct (Hres (mkFetchCall "https://api.example.com/missing" (options_for GET ""))
              Stub.missing eq_refl eq_refl) as (Hst & _ & Hh & _ & Herr).
  exists r. split; [exact Hr|]. split; [exact Hst|]. split; [|exact Herr].
  rewrite Hh. reflexivity.
Defined.

(** * Further properties of the code *)

(** ** Every run of [sendRequest] *)

Lemma run_outcome {J} (host : Host J) url method body (w w' : World J) :
  sendRequest host url method body w = (inl tt, w') ->
  Outcome host url method body w w'.
Proof.
  intros Hrun.
  destruct (sendRequest_outcome host url method body w) as (w1 & Hrun1 & Hout).
  now replace w' with w1 by congruence.
Qed.

(** X1.  No exception leaves [sendRequest].  A run with a URL ends with the
    loading flag off and has read the clock twice, whichever way it went; a
    run without a URL leaves both as they were. *)
Theorem sendRequest_settles {J} (host : Host J) (url : string)
  (method : HttpMethod) (body : string) (w : World J) :
  exists w',
    sendRequest host url method body w = (inl tt, w')
    /\ loading (ui w') = (if truthy url then false else loading (ui w))
    /\ clock_reads w' = (if truthy url then S (S (clock_reads w)) else clock_reads w).
Proof.
  destruct (sendRequest_outcome host url method body w) as (w' & Hrun & Hout).
  exists w'. split; [exact Hrun|].
  destruct Hout as [-> | ? Hu | ? Hu | ? Hu | ? Hu]; try (apply truthy_nonempty in Hu; rewrite Hu);
    split; reflexivity.
Qed.

(** X2.  A run makes a network call exactly when the request passed both
    checks: the URL is not empty and [new URL] accepts it, and the body, when
    one is to be sent, parses as JSON.  It makes one call at most, and that
    call is for the URL and the method as given, with the body string as it
    was typed. *)
Theorem dispatched_iff_valid {J} (host : Host J) (url : string)
  (method : HttpMethod) (body : string) (w w' : World J) :
  sendRequest host url method body w = (inl tt, w') ->
  ((exists c, network w' = network w ++ [c])
   <-> (url <> "" /\ URL_new host url = inl tt
        /\ (permits_body method && truthy body = true ->
            exists j, JSON_parse host body = inl j)))
  /\ (network w' = network w
      \/ network w' = network w
           ++ [ {| call_url := url;
                   call_options :=
                     {| init_method := method;
                        init_headers := [("Content-Type", "application/json")];
                        init_body := if permits_body method && truthy body
                                     then Some body else None |} |} ]).
Proof.
  intros Hrun. apply run_outcome in Hrun.
  destruct Hrun as [Hu | e Hu He | pe Hu Hn Hs Hpe | err Hu Hn Hok Hf | res Hu Hn Hok Hf];
    (split; [split|]); simpl;
    try (intros [c Hc]; now apply log_not_extended in Hc);
    try (intros (H1 & H2 & H3); congruence);
    try (now left); try (now right);
    try (intros _; repeat split; assumption);
    try (eexists; reflexivity).
  intros (_ & _ & H3). destruct (H3 Hs) as [j Hj]. congruence.
Qed.

Lemma dispatched_iff_valid_witness :
  network (Stub.after "https://api.example.com/items" PUT " [1,2] ")
  = [ {| call_url := "https://api.example.com/items";
         call_options :=
           {| init_method := PUT;
              init_headers := [("Content-Type", "application/json")];
              init_body := Some " [1,2] " |} |} ].
Proof.
  destruct (dispatched_iff_valid Stub.host "https://api.example.com/items" PUT
              " [1,2] " Stub.idle
              (Stub.after "https://api.example.com/items" PUT " [1,2] ") eq_refl)
    as [_ [H|H]]; [vm_compute in H; discriminate | exact H].
Defined.

(** X3.  The time in the record is the second reading of the clock minus the
    first.  With a clock that does not run backwards it is not negative. *)
Theorem elapsed_time_not_negative {J} (host : Host J) (url : string)
  (method : HttpMethod) (body : string) (w w' : World J) :
  url <> "" ->
  (forall n, Date_now host n <= Date_now host (S n)) ->
  sendRequest host url method body w = (inl tt, w') ->
  exists r,
    response (ui w') = Some r
    /\ time r = Date_now host (S (clock_reads w)) - Date_now host (clock_reads w)
    /\ 0 <= time r.
Proof.
  intros Hurl Hmono Hrun. apply run_outcome in Hrun.
  specialize (Hmono (clock_reads w)).
  destruct Hrun; try congruence;
    (eexists; split; [reflexivity|]); simpl; unfold elapsed; split;
    try reflexivity; lia.
Qed.

Lemma elapsed_time_not_negative_witness :
  exists r,
    response (ui (Stub.after "https://api.example.com/items" GET "")) = Some r
    /\ time r = 40.
Proof.
  destruct (elapsed_time_not_negative Stub.host "https://api.example.com/items"
              GET "" Stub.idle (Stub.after "https://api.example.com/items" GET ""))
    as (r & Hr & Ht & _); [discriminate | intros n; simpl; lia | reflexivity |].
  exists r. split; [exact Hr|]. rewrite Ht. reflexivity.
Defined.

(** X4.  A run with a URL shows a toast exactly when it leaves a record with
    an error block, and then one toast, "Request failed", whose description
    is the message of the block.  A response that was received shows none,
    whatever its status. *)
Theorem toast_only_on_failure {J} (host : Host J) (url : string)
  (method : HttpMethod) (body : string) (w w' : World J) :
  url <> "" ->
  sendRequest host url method body w = (inl tt, w') ->
  exists r,
    response (ui w') = Some r
    /\ toasts (ui w')
       = toasts (ui w)
           ++ match error r with
              | Some blk => [ {| title := "Request failed";
                                 description := message blk;
                                 variant := Some "destructive" |} ]
              | None => []
              end.
Proof.
  intros Hurl Hrun. apply run_outcome in Hrun.
  destruct Hrun; try congruence;
    (eexists; split; [reflexivity|]); simpl; try reflexivity.
  now rewrite List.app_nil_r.
Qed.

Lemma toast_only_on_failure_witness :
  toasts (ui (Stub.after "https://api.example.com/missing" GET "")) = []
  /\ toasts (ui (Stub.after "https://down.example.com/" GET ""))
     = [ {| title := "Request failed"; description := "Failed to fetch";
            variant := Some "destructive" |} ].
Proof.
  split.
  - destruct (toast_only_on_failure Stub.host "https://api.example.com/missing"
                GET "" Stub.idle
                (Stub.after "https://api.example.com/missing" GET ""))
      as (r & Hr & Ht); [discriminate | reflexivity |].
    rewrite Ht. vm_compute in Hr. injection Hr as <-. reflexivity.
  - destruct (toast_only_on_failure Stub.host "https://down.example.com/"
                GET "" Stub.idle
                (Stub.after "https://down.example.com/" GET ""))
      as (r & Hr & Ht); [discriminate | reflexivity |].
    rewrite Ht. vm_compute in Hr. injection Hr as <-. reflexivity.
Defined.

(** The worlds of two outcomes of the same request show the same record,
    alert and loading flag when the clock stood at the same reading. *)
Lemma outcomes_agree {J} (host : Host J) url method body (w1 w2 w1' w2' : World J) :
  url <> "" ->
  clock_reads w1 = clock_reads w2 ->
  Outcome host url method body w1 w1' ->
  Outcome host url method body w2 w2' ->
  response (ui w1') = response (ui w2')
  /\ errorDetails (ui w1') = errorDetails (ui w2')
  /\ loading (ui w1') = loading (ui w2').
Proof.
  intros Hurl Hclock H1 H2.
  destruct H1 as [ | | pe ? ? Hs Hpe | err ? ? Hok Hf | res ? ? Hok Hf ];
    destruct H2 as [ | | pe' ? ? Hs' Hpe' | err' ? ? Hok' Hf' | res' ? ? Hok' Hf' ];
    try congruence;
    try (destruct (Hok Hs') as [j Hj]; congruence);
    try (destruct (Hok' Hs) as [j Hj]; congruence);
    simpl; unfold elapsed; rewrite Hclock.
  - repeat split.
  - assert (pe = pe') by congruence. subst. repeat split.
  - assert (err = err') by congruence. subst. repeat split.
  - assert (res = res') by congruence. subst. repeat split.
Qed.

(** X5.  What a run with a URL leaves on the screen does not depend on what
    was there before: from any two states of the component, with the clock at
    the same reading, the same request ends with the same record, the same
    alert and the loading flag off.  Nothing of an earlier response or alert
    survives a run. *)
Theorem previous_state_forgotten {J} (host : Host J) (url : string)
  (method : HttpMethod) (body : string) (w1 w2 w1' w2' : World J) :
  url <> "" ->
  clock_reads w1 = clock_reads w2 ->
  sendRequest host url method body w1 = (inl tt, w1') ->
  sendRequest host url method body w2 = (inl tt, w2') ->
  response (ui w1') = response (ui w2')
  /\ errorDetails (ui w1') = errorDetails (ui w2')
  /\ loading (ui w1') = loading (ui w2').
Proof.
  intros Hurl Hclock H1 H2.
  apply run_outcome in H1. apply run_outcome in H2.
  eapply outcomes_agree; eauto.
Qed.

Lemma previous_state_forgotten_witness :
  let seen := Stub.after "https://down.example.com/" GET "" in
  let again :=
    (sendRequest Stub.host "https://api.example.com/items" GET ""
       {| ui := ui seen; clock_reads := 0; network := network seen |}).2 in
  errorDetails (ui seen) <> None
  /\ errorDetails (ui again) = None
  /\ response (ui again)
     = response (ui (Stub.after "https://api.example.com/items" GET "")).
Proof.
  intros seen again.
  destruct (previous_state_forgotten Stub.host "https://api.example.com/items"
              GET ""
              {| ui := ui seen; clock_reads := 0; network := network seen |}
              Stub.idle again
              (Stub.after "https://api.example.com/items" GET ""))
    as (Hr & Hd & _); [discriminate | reflexivity | reflexivity | reflexivity |].
  split; [vm_compute; discriminate|].
  split; [rewrite Hd; reflexivity | exact Hr].
Defined.

(** X6.  After a run with a URL the alert can be read off the record.  For a
    record with an error block it is the details string of the block; for a
    record without one it is empty when the status is in 200..299 and the
    status explanation for the status and status text of the record
    otherwise. *)
Theorem alert_determined_by_record {J} (host : Host J) (url : string)
  (method : HttpMethod) (body : string) (w w' : World J) :
  url <> "" ->
  sendRequest host url method body w = (inl tt, w') ->
  exists r,
    response (ui w') = Some r
    /\ errorDetails (ui w')
       = match error r with
         | Some blk => details blk
         | None =>
             if (200 <=? status r) && (status r <=? 299) then None
             else Some (statusExplanation (status r) (statusText r))
         end.
Proof.
  intros Hurl Hrun. apply run_outcome in Hrun.
  destruct Hrun; try congruence; (eexists; split; [reflexivity|]); reflexivity.
Qed.

Lemma alert_determined_by_record_witness :
  exists r,
    response (ui (Stub.after "api.example.com" GET "")) = Some r
    /\ exists blk, error r = Some blk
       /\ errorDetails (ui (Stub.after "api.example.com" GET "")) = details blk.
Proof.
  destruct (alert_determined_by_record Stub.host "api.example.com" GET ""
              Stub.idle (Stub.after "api.example.com" GET ""))
    as (r & Hr & Ha); [discriminate | reflexivity |].
  exists r. split; [exact Hr|].
  pose proof Hr as Hr'. vm_compute in Hr'. injection Hr' as <-.
  eexists. split; [reflexivity | exact Ha].
Defined.

(** ** The collected headers *)

Lemma headers_get_found (l : list (string * string)) (k v : string) :
  headers_get l k = Some v -> In (k, v) l.
Proof.
  induction l as [|[k' v'] l IH]; simpl; [discriminate|].
  destruct (String.eqb_spec k' k) as [->|Hne].
  - intros [= ->]. now left.
  - intros H. right. now apply IH.
Qed.

Lemma headers_get_absent (l : list (string * string)) (k : string) :
  headers_get l k = None <-> ~ In k (List.map fst l).
Proof.
  induction l as [|[k' v'] l IH]; simpl; [tauto|].
  destruct (String.eqb_spec k' k) as [->|Hne].
  - split; [discriminate | intros H; destruct H; now left].
  - rewrite IH. tauto.
Qed.

Lemma headers_get_distinct (l : list (string * string)) (k v : string) :
  List.NoDup (List.map fst l) -> In (k, v) l -> headers_get l k = Some v.
Proof.
  induction l as [|[k' v'] l IH]; simpl; [intros _ []|].
  intros Hnd [Heq|Hin].
  - injection Heq as -> ->. now rewrite String.eqb_refl.
  - apply List.NoDup_cons_iff in Hnd as [Hnotin Hnd].
    destruct (String.eqb_spec k' k) as [->|Hne]; [|now apply IH].
    destruct Hnotin. change k with (fst (k, v)). now apply List.in_map.
Qed.

(** X7.  Collecting the headers of a response whose names are distinct
    adds nothing and loses nothing but a header named [__proto__]: a name is
    mapped to a value exactly when the response has that header with that
    value and the name is not [__proto__]. *)
Theorem collect_headers_distinct (hs : list (string * string)) (k v : string) :
  List.NoDup (List.map fst hs) ->
  (collect_headers hs !! k = Some v <-> In (k, v) hs /\ k <> "__proto__").
Proof.
  intros Hnd. rewrite collect_headers_lookup.
  destruct (String.eqb_spec k "__proto__") as [Hk|Hk].
  - split; [discriminate | intros [_ H]; contradiction].
  - split.
    + intros H. split; [|exact Hk]. apply List.in_rev. now apply headers_get_found.
    + intros [H _]. apply headers_get_distinct.
      * rewrite List.map_rev. now apply List.NoDup_rev.
      * now apply List.in_rev in H.
Qed.

Lemma collect_headers_distinct_witness :
  collect_headers [("__proto__", "v1"); ("content-type", "text/html"); ("etag", "abc")]
    !! "etag" = Some "abc".
Proof.
  apply (collect_headers_distinct
           [("__proto__", "v1"); ("content-type", "text/html"); ("etag", "abc")]
           "etag" "abc").
  - repeat constructor; simpl; intuition discriminate.
  - split; [right; right; now left | discriminate].
Defined.

(** X8.  When a name other than [__proto__] is visited more than once, the
    value visited last stays.  A name is absent from the mapping exactly
    when the response does not have it or it is [__proto__]. *)
Theorem collect_headers_last_wins (hs tl : list (string * string)) (k v : string) :
  (k <> "__proto__" -> ~ In k (List.map fst tl) ->
   collect_headers (hs ++ (k, v) :: tl) !! k = Some v)
  /\ (collect_headers hs !! k = None
      <-> k = "__proto__" \/ ~ In k (List.map fst hs)).
Proof.
  split.
  - intros Hk Hnotin. rewrite collect_headers_lookup, List.rev_app_distr.
    apply String.eqb_neq in Hk. rewrite Hk.
    simpl. rewrite <- List.app_assoc, headers_get_app.
    assert (Hnone : headers_get (rev tl) k = None).
    { apply headers_get_absent. rewrite List.map_rev, <- List.in_rev. exact Hnotin. }
    rewrite Hnone. simpl. now rewrite String.eqb_refl.
  - rewrite collect_headers_lookup.
    destruct (String.eqb_spec k "__proto__") as [Hk|Hk].
    + split; [now left | reflexivity].
    + rewrite headers_get_absent, List.map_rev, <- List.in_rev. tauto.
Qed.

Lemma collect_headers_last_wins_witness :
  collect_headers [("x-tag", "a"); ("vary", "accept"); ("x-tag", "b")] !! "x-tag"
  = Some "b".
Proof.
  apply (proj1 (collect_headers_last_wins
                  [("x-tag", "a"); ("vary", "accept")] [] "x-tag" "b")).
  - discriminate.
  - simpl. tauto.
Defined.

(** ** The details string *)

Lemma startsWith_self (s : string) : startsWith s s = true.
Proof. rewrite <- (append_empty_r s) at 1. apply startsWith_append. Qed.

Lemma formatErrorDetails_heading (e : JsError) :
  startsWith (formatErrorDetails e) (details_heading e) = true.
Proof.
  unfold formatErrorDetails. fold (details_heading e).
  generalize (details_heading e) as h. intros h.
  destruct (has_stack e), (instanceof_TypeError e), (instanceof_SyntaxError e),
    (instanceof_URIError e);
    first [ apply startsWith_self
          | apply startsWith_append
          | apply startsWith_weaken, startsWith_append ].
Qed.

Lemma formatErrorDetails_truthy (e : JsError) :
  truthy (formatErrorDetails e) = true.
Proof.
  pose proof (formatErrorDetails_heading e) as H.
  destruct (formatErrorDetails e); [discriminate H | reflexivity].
Qed.

(** X9.  The details string of an error starts with its name and its
    message, on two lines.  A stack that is not empty follows under
    "Stack Trace:", and a [TypeError], [SyntaxError] or [URIError] gets the
    note that explains its kind. *)
Theorem formatErrorDetails_shape (e : JsError) :
  startsWith (formatErrorDetails e)
    ("Error Type: " +:+ err_name e +:+ LF +:+ "Message: " +:+ err_message e) = true
  /\ (forall st, err_stack e = Some st -> st <> "" ->
        includes (formatErrorDetails e) ("Stack Trace:" +:+ LF +:+ st) = true)
  /\ (instanceof_TypeError e = true ->
        includes (formatErrorDetails e)
          "This is a TypeError, which often occurs when:" = true)
  /\ (instanceof_SyntaxError e = true ->
        includes (formatErrorDetails e)
          "This is a SyntaxError, which typically occurs when:" = true)
  /\ (instanceof_URIError e = true ->
        includes (formatErrorDetails e)
          "This is a URIError, which occurs when:" = true).
Proof.
  split; [apply formatErrorDetails_heading|]. split; [|split; [|split]].
  - intros st Hst Hne.
    assert (Hhas : has_stack e = true)
      by (unfold has_stack; rewrite Hst; now apply truthy_nonempty).
    unfold formatErrorDetails. rewrite Hhas, Hst. simpl default.
    fold (details_heading e). generalize (details_heading e) as h. intros h.
    destruct (instanceof_TypeError e), (instanceof_SyntaxError e),
      (instanceof_URIError e);
      first [ do 3 apply includes_prepend; apply includes_self
            | apply includes_extend; do 3 apply includes_prepend;
              apply includes_self ].
  - intros Hc. unfold formatErrorDetails. rewrite Hc.
    do 3 apply includes_prepend. apply includes_extend, includes_self.
  - intros Hc. unfold formatErrorDetails.
    assert (instanceof_TypeError e = false) as ->
      by (unfold instanceof_TypeError, instanceof_SyntaxError in *;
          destruct (err_class e); congruence).
    rewrite Hc.
    do 3 apply includes_prepend. apply includes_extend, includes_self.
  - intros Hc. unfold formatErrorDetails.
    assert (instanceof_TypeError e = false) as ->
      by (unfold instanceof_TypeError, instanceof_URIError in *;
          destruct (err_class e); congruence).
    assert (instanceof_SyntaxError e = false) as ->
      by (unfold instanceof_SyntaxError, instanceof_URIError in *;
          destruct (err_class e); congruence).
    rewrite Hc.
    do 3 apply includes_prepend. apply includes_extend, includes_self.
Qed.

Lemma formatErrorDetails_shape_witness :
  includes (formatErrorDetails (Stub.type_error "Failed to fetch"))
    ("Stack Trace:" +:+ LF +:+ "TypeError: Failed to fetch") = true
  /\ includes (formatErrorDetails (Stub.type_error "Failed to fetch"))
       "This is a TypeError, which often occurs when:" = true.
Proof.
  destruct (formatErrorDetails_shape (Stub.type_error "Failed to fetch"))
    as (_ & Hstack & Htype & _).
  split; [apply Hstack; [reflexivity | discriminate] | apply Htype; reflexivity].
Defined.

(** ** The error tab of a failed run *)

Lemma optional_field_label (label label' content : string) (x : option string) :
  In (Field label' content) (optional_field label x) ->
  label' = label /\ x = Some content /\ content <> "".
Proof.
  unfold optional_field. destruct x as [s|]; [|intros []].
  destruct s as [|a s]; simpl; [intros []|].
  intros [[= <- <-]|[]]. repeat split. discriminate.
Qed.

(** X10.  The network help goes by the message alone, not by the kind of
    failure.  Whatever error reaches the outer [catch], the error tab of the
    record has the help box exactly when the message of that error contains
    "Failed to fetch"; so it is also shown for a URL that was rejected without
    any network call when the URL contains those words. *)
Theorem help_follows_message {J} (host : Host J) (url : string)
  (method : HttpMethod) (body : string) (w w' : World J) (thrown : JsError) :
  url <> "" ->
  sendRequest host url method body w = (inl tt, w') ->
  Failure host url method body thrown ->
  exists r blocks,
    response (ui w') = Some r
    /\ render_error r = Some blocks
    /\ (In (Help network_help) blocks
        <-> includes (err_message thrown) "Failed to fetch" = true).
Proof.
  intros Hurl Hrun Hfail.
  destruct (failure_outcome host _ _ _ _ _ _ Hurl Hrun Hfail) as [sent ->].
  do 2 eexists. split; [reflexivity|]. split; [reflexivity|].
  unfold error_tab, getNetworkErrorHelp. cbn [message].
  rewrite failure_message_signature, !List.in_app_iff.
  destruct (includes (err_message thrown) "Failed to fetch").
  - split; [reflexivity|]. intros _. do 5 right. now left.
  - split; [|discriminate].
    intros [[Hin|[]]|[Hin|[Hin|[Hin|[Hin|[]]]]]];
      [discriminate | now apply optional_field_no_help in Hin ..].
Qed.

Lemma help_follows_message_witness :
  network (Stub.after "Failed to fetch" GET "") = []
  /\ exists r blocks,
       response (ui (Stub.after "Failed to fetch" GET "")) = Some r
       /\ render_error r = Some blocks
       /\ In (Help network_help) blocks.
Proof.
  split; [reflexivity|].
  destruct (help_follows_message Stub.host "Failed to fetch" GET "" Stub.idle
              (Stub.after "Failed to fetch" GET "")
              (new_Error Stub.host (InvalidUrl_message "Failed to fetch")))
    as (r & blocks & Hr & Hb & Hhelp);
    [discriminate | reflexivity | eapply FailInvalidUrl; reflexivity |].
  exists r, blocks. split; [exact Hr|]. split; [exact Hb|].
  apply Hhelp. reflexivity.
Defined.

(** X11.  The error tab of a failed run starts with the message and always
    has the details; it has the type exactly when the error has a name, the
    stack exactly when the error has a stack that is not empty, and never a
    code. *)
Theorem error_tab_fields {J} (host : Host J) (url : string)
  (method : HttpMethod) (body : string) (w w' : World J) (thrown : JsError) :
  url <> "" ->
  sendRequest host url method body w = (inl tt, w') ->
  Failure host url method body thrown ->
  exists r blocks,
    response (ui w') = Some r
    /\ render_error r = Some blocks
    /\ List.hd_error blocks
       = Some (Field "Message:"
                 (or_else (err_message thrown) "Unknown error occurred"))
    /\ In (Field "Details:" (formatErrorDetails thrown)) blocks
    /\ (forall content, ~ In (Field "Code:" content) blocks)
    /\ (forall name, In (Field "Type:" name) blocks
                     <-> err_name thrown = name /\ name <> "")
    /\ (forall st, In (Field "Stack Trace:" st) blocks
                   <-> err_stack thrown = Some st /\ st <> "").
Proof.
  intros Hurl Hrun Hfail.
  destruct (failure_outcome host _ _ _ _ _ _ Hurl Hrun Hfail) as [sent ->].
  do 2 eexists. split; [reflexivity|]. split; [reflexivity|].
  unfold error_tab. cbn [message type code stack details].
  split; [reflexivity|].
  assert (Hhelp : forall label content,
            ~ In (Field label content)
                match getNetworkErrorHelp (failure_message thrown) with
                | Some note => [Help note]
                | None => []
                end).
  { intros label content. destruct (getNetworkErrorHelp _); simpl;
      intuition discriminate. }
  split; [|split; [|split]].
  - rewrite !List.in_app_iff. do 4 right. left.
    unfold optional_field. rewrite formatErrorDetails_truthy. now left.
  - intros content. rewrite !List.in_app_iff.
    intros [[H|[]]|[H|[H|[H|[H|H]]]]]; try discriminate;
      try (apply optional_field_label in H as (H & _); discriminate).
    + apply optional_field_label in H as (_ & H & _). discriminate.
    + now apply Hhelp in H.
  - intros name. rewrite !List.in_app_iff. split.
    + intros [[H|[]]|[H|[H|[H|[H|H]]]]]; try discriminate;
        try (apply optional_field_label in H as (H & _); discriminate).
      * apply optional_field_label in H as (_ & H & Hne).
        injection H as <-. now split.
      * now apply Hhelp in H.
    + intros [<- Hne]. right. left. unfold optional_field.
      apply truthy_nonempty in Hne. rewrite Hne. now left.
  - intros st. rewrite !List.in_app_iff. split.
    + intros [[H|[]]|[H|[H|[H|[H|H]]]]]; try discriminate;
        try (apply optional_field_label in H as (H & _); discriminate).
      * apply optional_field_label in H as (_ & H & Hne). now split.
      * now apply Hhelp in H.
    + intros [Hst Hne]. do 3 right. left. unfold optional_field.
      rewrite Hst. apply truthy_nonempty in Hne. rewrite Hne. now left.
Qed.

Lemma error_tab_fields_witness :
  exists r blocks,
    response (ui (Stub.after "https://down.example.com/" GET "")) = Some r
    /\ render_error r = Some blocks
    /\ In (Field "Type:" "TypeError") blocks
    /\ In (Field "Stack Trace:" "TypeError: Failed to fetch") blocks.
Proof.
  destruct (error_tab_fields Stub.host "https://down.example.com/" GET ""
              Stub.idle (Stub.after "https://down.example.com/" GET "")
              (Stub.type_error "Failed to fetch"))
    as (r & blocks & Hr & Hb & _ & _ & _ & Htype & Hstack);
    [discriminate | reflexivity
    | apply FailNetworkError; [reflexivity | discriminate | reflexivity] |].
  exists r, blocks. split; [exact Hr|]. split; [exact Hb|]. split.
  - apply Htype. split; [reflexivity | discriminate].
  - apply Hstack. split; [reflexivity | discriminate].
Defined.

(** ** The status badge *)

(** X12.  The colour of the badge sorts every status into one of five
    classes.  The red of the failures is used for status 0 and for every
    status from 500 on, the grey only for a status below 200 other than 0,
    and 2xx, 3xx and 4xx have a colour each. *)
Theorem getStatusColor_classes (status : Z) :
  (getStatusColor status = "bg-destructive text-white"
   <-> status = 0 \/ 500 <= status)
  /\ (getStatusColor status = "bg-gray-500 text-white"
      <-> status < 200 /\ status <> 0)
  /\ (getStatusColor status = "bg-method-post text-white" <-> 200 <= status < 300)
  /\ (getStatusColor status = "bg-method-put text-white" <-> 300 <= status < 400)
  /\ (getStatusColor status = "bg-method-delete text-white"
      <-> 400 <= status < 500).
Proof.
  unfold getStatusColor.
  destruct (Z.leb_spec 200 status), (Z.ltb_spec status 300),
    (Z.leb_spec 300 status), (Z.ltb_spec status 400),
    (Z.leb_spec 400 status), (Z.ltb_spec status 500),
    (Z.leb_spec 500 status), (Z.eqb_spec status 0);
    cbn [andb]; try lia;
    repeat split; intros; try discriminate; try lia; try reflexivity.
Qed.

Lemma getStatusColor_put (status : Z) :
  getStatusColor status = "bg-method-put text-white" <-> 300 <= status < 400.
Proof.
  unfold getStatusColor.
  destruct (Z.leb_spec 200 status), (Z.ltb_spec status 300),
    (Z.leb_spec 300 status), (Z.ltb_spec status 400),
    (Z.leb_spec 400 status), (Z.ltb_spec status 500),
    (Z.leb_spec 500 status), (Z.eqb_spec status 0);
    cbn [andb]; try lia;
    split; intros; try discriminate; try lia; try reflexivity.
Qed.

(** X13.  A 3xx response that reaches the component is shown with the badge
    colour of the redirects, not with one of the error colours, and still
    gets the "HTTP Error" alert of the dispatcher. *)
Theorem redirect_badge_and_alert {J} (host : Host J) (printer : Serializer J)
  (url : string) (method : HttpMethod) (body : string) (w w' : World J)
  (c : FetchCall) (res : FetchResponse J) :
  sendRequest host url method body w = (inl tt, w') ->
  network w' = network w ++ [c] ->
  fetch host c = inl res ->
  300 <= res_status res < 400 ->
  exists v,
    ResponseViewer host printer (response (ui w')) = Some v
    /\ badge_class v = "bg-method-put text-white px-2 py-1"
    /\ errorDetails (ui w')
       = Some (statusExplanation (res_status res) (res_statusText res))
    /\ startsWith (statusExplanation (res_status res) (res_statusText res))
         "HTTP Error " = true.
Proof.
  intros Hrun Hlog Hfetch Hrange.
  rewrite (run_answered host _ _ _ _ _ _ _ Hrun Hlog Hfetch).
  eexists. split; [reflexivity|]. cbn [badge_class status errorDetails ui answered_world].
  split; [|split].
  - destruct (getStatusColor_put (res_status res)) as [_ H]. now rewrite H.
  - unfold res_ok.
    destruct (Z.leb_spec 200 (res_status res)), (Z.leb_spec (res_status res) 299);
      try lia; reflexivity.
  - apply startsWith_append.
Qed.

Lemma redirect_badge_and_alert_witness :
  exists v,
    ResponseViewer Stub.host stub_printer
      (response (ui (Stub.after "https://api.example.com/choices" GET ""))) = Some v
    /\ badge_class v = "bg-method-put text-white px-2 py-1"
    /\ errorDetails (ui (Stub.after "https://api.example.com/choices" GET ""))
       = Some (statusExplanation 300 "Multiple Choices").
Proof.
  destruct (redirect_badge_and_alert Stub.host stub_printer
              "https://api.example.com/choices" GET "" Stub.idle
              (Stub.after "https://api.example.com/choices" GET "")
              (mkFetchCall "https://api.example.com/choices" (options_for GET ""))
              Stub.choices eq_refl eq_refl eq_refl)
    as (v & Hv & Hb & Ha & _); [simpl; lia|].
  exists v. repeat split; assumption.
Defined.

(** ** What the viewer shows after a run *)

(** X14.  After a failed run the viewer shows the badge "0 Error" in the red
    of the failures and the three tabs Body, Headers and Error.  After a run
    that received a response it shows the status and status text of the
    response in the badge and the tabs Body and Headers only, whatever the
    status.  In both cases the time is shown in milliseconds. *)
Theorem view_after_run {J} (host : Host J) (printer : Serializer J)
  (url : string) (method : HttpMethod) (body : string) (w w' : World J) :
  url <> "" ->
  sendRequest host url method body w = (inl tt, w') ->
  exists v,
    ResponseViewer host printer (response (ui w')) = Some v
    /\ time_text v = pretty (elapsed host w) +:+ "ms"
    /\ (forall thrown, Failure host url method body thrown ->
          badge_text v = "0 Error"
          /\ badge_class v = "bg-destructive text-white px-2 py-1"
          /\ tab_names v = ["Body"; "Headers"; "Error"])
    /\ (forall c res,
          network w' = network w ++ [c] -> fetch host c = inl res ->
          badge_text v = pretty (res_status res) +:+ " " +:+ res_statusText res
          /\ tab_names v = ["Body"; "Headers"]
          /\ error_blocks v = None).
Proof.
  intros Hurl Hrun.
  assert (Hout := run_outcome host _ _ _ _ _ Hrun).
  assert (Hshown : exists r, response (ui w') = Some r /\ time r = elapsed host w).
  { destruct Hout; try congruence; eexists; split; reflexivity. }
  destruct Hshown as (r & Hr & Ht). rewrite Hr.
  eexists. split; [reflexivity|]. cbn [time_text badge_text badge_class tab_names error_blocks].
  rewrite Ht. split; [reflexivity|]. split.
  - intros thrown Hfail.
    destruct (failure_outcome host _ _ _ _ _ _ Hurl Hrun Hfail) as [sent ->].
    simpl in Hr. injection Hr as <-. repeat split.
  - intros c res Hlog Hfetch.
    rewrite (run_answered host _ _ _ _ _ _ _ Hrun Hlog Hfetch) in Hr.
    simpl in Hr. injection Hr as <-. repeat split.
Qed.

Lemma view_after_run_witness :
  exists v,
    ResponseViewer Stub.host stub_printer
      (response (ui (Stub.after "https://api.example.com/missing" GET ""))) = Some v
    /\ badge_text v = "404 Not Found"
    /\ time_text v = "40ms"
    /\ tab_names v = ["Body"; "Headers"].
Proof.
  destruct (view_after_run Stub.host stub_printer
              "https://api.example.com/missing" GET "" Stub.idle
              (Stub.after "https://api.example.com/missing" GET ""))
    as (v & Hv & Ht & _ & Hres); [discriminate | reflexivity |].
  destruct (Hres (mkFetchCall "https://api.example.com/missing" (options_for GET ""))
              Stub.missing eq_refl eq_refl) as (Hb & Htabs & _).
  exists v. split; [exact Hv|]. split; [rewrite Hb; reflexivity|].
  split; [rewrite Ht; reflexivity | exact Htabs].
Defined.

(** X15.  The body tab does not depend on whether the dispatcher parsed a
    text body.  For a response read as text, the tab shows what [formatJson]
    makes of the text itself: the text as it is when it is not JSON, and the
    printed value when it is, also for text such as a number that the
    dispatcher keeps as text.  This holds when printing a parsed value does
    not throw. *)
Theorem body_tab_of_text {J} (host : Host J) (printer : Serializer J)
  (url : string) (method : HttpMethod) (body : string) (w w' : World J)
  (c : FetchCall) (res : FetchResponse J) (text : string) :
  sendRequest host url method body w = (inl tt, w') ->
  network w' = network w ++ [c] ->
  fetch host c = inl res ->
  content_type_contains_json res = false ->
  res_text res = inl text ->
  (forall j, JSON_parse host text = inl j ->
             exists out, JSON_stringify printer j = inl out) ->
  exists v,
    ResponseViewer host printer (response (ui w')) = Some v
    /\ body_text v = formatJson host printer (DataText text)
    /\ (forall e, JSON_parse host text = inr e -> body_text v = text)
    /\ (forall j out, JSON_parse host text = inl j ->
                      JSON_stringify printer j = inl out -> body_text v = out).
Proof.
  intros Hrun Hlog Hfetch Hct Htext Hprint.
  rewrite (run_answered host _ _ _ _ _ _ _ Hrun Hlog Hfetch).
  eexists. split; [reflexivity|]. cbn [body_text data response ui answered_world].
  unfold decoded. rewrite is_json_content_type_contains, Hct, Htext.
  assert (Hsame : formatJson host printer
                    (if looks_like_json text
                     then match JSON_parse host text with
                          | inl j => DataJson j
                          | inr _ => DataText text
                          end
                     else DataText text)
                  = formatJson host printer (DataText text)).
  { destruct (looks_like_json text); [|reflexivity].
    destruct (JSON_parse host text) as [j|e] eqn:Hp; [|simpl; now rewrite Hp].
    destruct (Hprint j eq_refl) as [out Hout]. simpl. now rewrite Hp, Hout. }
  rewrite Hsame. split; [reflexivity|]. split.
  - intros e Hp. simpl. now rewrite Hp.
  - intros j out Hp Hout. simpl. now rewrite Hp, Hout.
Qed.

Lemma body_tab_of_text_witness :
  exists v,
    ResponseViewer Stub.host stub_printer
      (response (ui (Stub.after "https://api.example.com/page" GET ""))) = Some v
    /\ body_text v = "{not json".
Proof.
  destruct (body_tab_of_text Stub.host stub_printer
              "https://api.example.com/page" GET "" Stub.idle
              (Stub.after "https://api.example.com/page" GET "")
              (mkFetchCall "https://api.example.com/page" (options_for GET ""))
              Stub.page "{not json" eq_refl eq_refl eq_refl eq_refl eq_refl)
    as (v & Hv & _ & Hraw & _).
  - intros j Hj. vm_compute in Hj. discriminate.
  - exists v. split; [exact Hv|]. eapply Hraw. reflexivity.
Defined.

(** ** The body editor and the dispatcher *)

(** X16.  The text area for the body is offered exactly for the methods for
    which [sendRequest] looks at the body.  For GET and HEAD the component
    shows a notice naming the method instead, and a body still held in the
    state from before has no effect on the request. *)
Theorem body_editor_matches_dispatcher {J} (host : Host J)
  (method : HttpMethod) (value : string) :
  RequestBody (method_name method) value
  = (if permits_body method then Textarea "Enter JSON request body" value
     else NotApplicable
            ("Request body is not applicable for " +:+ method_name method
               +:+ " requests."))
  /\ (permits_body method = false ->
      forall url (w : World J),
        sendRequest host url method value w = sendRequest host url method "" w).
Proof.
  split; [destruct method; reflexivity|].
  intros Hm url w. unfold sendRequest. rewrite Hm. reflexivity.
Qed.

Lemma body_editor_matches_dispatcher_witness :
  RequestBody "HEAD" "{}"
  = NotApplicable "Request body is not applicable for HEAD requests."
  /\ Stub.after "https://api.example.com/items" HEAD "{}"
     = Stub.after "https://api.example.com/items" HEAD "".
Proof.
  destruct (body_editor_matches_dispatcher Stub.host HEAD "{}") as [Hview Hrun].
  split; [exact Hview|].
  unfold Stub.after. rewrite (Hrun eq_refl). reflexivity.
Defined.

(** ** The test for text that looks like JSON *)

Lemma trimStart_head (text : string) :
  match trimStart text with
  | String c _ => is_white c = false
  | EmptyString => True
  end.
Proof.
  induction text as [|c text IH]; simpl; [exact I|].
  destruct (is_white c) eqn:Hc; [exact IH | exact Hc].
Qed.

Lemma trimEnd_head (c : ascii) (s : string) :
  is_white c = false -> exists rest, trimEnd (String c s) = String c rest.
Proof.
  intros Hc. simpl. rewrite Hc. destruct (trimEnd s); eexists; reflexivity.
Qed.

(** X17.  Whether a text body is tried as JSON depends on its first
    character that is not white space only: the text is tried exactly when
    that character is an opening brace or bracket.  Text that is empty or all
    white space is never tried, and what follows the first character,
    trailing white space included, plays no part. *)
Theorem looks_like_json_first_character (text : string) :
  looks_like_json text
  = match trimStart text with
    | String c _ => Ascii.eqb "{" c || Ascii.eqb "[" c
    | EmptyString => false
    end.
Proof.
  unfold looks_like_json, trim.
  pose proof (trimStart_head text) as Hhead.
  destruct (trimStart text) as [|c s]; [reflexivity|].
  destruct (trimEnd_head c s Hhead) as [rest ->].
  cbn [startsWith].
  destruct (Ascii.eqb "{" c), (Ascii.eqb "[" c), rest; reflexivity.
Qed.
